(** * Citation checker: extraction, knowledge base, verification

    A shallow embedding of [citationChecker.py] (class [CitationChecker]) and
    the properties of its two-stage pipeline: pattern-based extraction and
    normalisation of author-year citations, and the construction and lookup
    of the verified set and the suspicious map.

    Modelling decisions.
    - A Python [str] is the list of its code points ([list N]).  Literals are
      written as Rocq strings and decoded from UTF-8 by [py].
    - The five citation patterns are terms of a small regular-expression
      syntax; [run] is a backtracking matcher that returns every way a
      pattern matches at a position, in the priority order of Python's [re]
      (greedy quantifiers first), and [finditer] scans left to right for
      non-overlapping leftmost matches.
    - [re] compiles [str] patterns in Unicode mode.  The classes [\s], [\d],
      [\w] and the case mappings are written out on ASCII; beyond ASCII they
      are read from the tables of a [unicode] record, over which every
      definition and theorem is parameterised.
    - Files are the inputs of the knowledge-base builder: [None] is a file
      that is absent or whose reading raised (the [except] branch), [Some]
      carries the content that was read. *)

From stdpp Require Import gmap strings list.
From Stdlib Require Import NArith Ascii Lia DecimalString.

Local Open Scope N_scope.
Local Open Scope list_scope.

(** ** Python strings *)

Abbreviation str := (list N).

(** UTF-8 decoding of a literal: [need] continuation bytes are still
    expected for the code point accumulated in [acc]. *)
Fixpoint utf8_decode (s : string) (acc : N) (need : nat) : str :=
  match s with
  | EmptyString => []
  | String a s' =>
      let b := N_of_ascii a in
      match need with
      | O =>
          if b <? 128 then b :: utf8_decode s' 0 0
          else if b <? 224 then utf8_decode s' (b - 192) 1
          else if b <? 240 then utf8_decode s' (b - 224) 2
          else utf8_decode s' (b - 240) 3
      | S O => (acc * 64 + (b - 128)) :: utf8_decode s' 0 0
      | S n => utf8_decode s' (acc * 64 + (b - 128)) n
      end
  end.

Definition py (s : string) : str := utf8_decode s 0 0.

Definition chr (a : ascii) : N := N_of_ascii a.

(** The tables of the Unicode database that Python consults for code points
    of 128 and above: [str.isspace], [str.isdecimal], [str.isalnum], and the
    case mappings (a code point may map to several). *)
Record unicode := {
  uni_space : N -> bool;
  uni_decimal : N -> bool;
  uni_alnum : N -> bool;
  uni_lower : N -> str;
  uni_upper : N -> str
}.

(** A database with nothing beyond ASCII: every other code point is a
    caseless symbol. *)
Definition ascii_only : unicode :=
  {| uni_space := fun _ => false;
     uni_decimal := fun _ => false;
     uni_alnum := fun _ => false;
     uni_lower := fun c => [c];
     uni_upper := fun c => [c] |}.

Definition between (lo hi c : N) : bool := (lo <=? c) && (c <=? hi).

Definition is_AZ (c : N) : bool := between 65 90 c.
Definition is_az (c : N) : bool := between 97 122 c.

Section Unicode.
Variable U : unicode.

(** [\s]: ASCII whitespace is TAB..CR, FS..US and the space. *)
Definition is_space (c : N) : bool :=
  if c <? 128 then between 9 13 c || between 28 32 c else uni_space U c.

(** [\d] *)
Definition is_digit (c : N) : bool :=
  if c <? 128 then between 48 57 c else uni_decimal U c.

(** [\w]: alphanumeric or the underscore. *)
Definition is_word (c : N) : bool :=
  if c <? 128 then is_AZ c || is_az c || between 48 57 c || (c =? 95)
  else uni_alnum U c.

Definition lower_cp (c : N) : str :=
  if c <? 128 then [if is_AZ c then c + 32 else c] else uni_lower U c.

Definition upper_cp (c : N) : str :=
  if c <? 128 then [if is_az c then c - 32 else c] else uni_upper U c.

(** [s.lower()] and [s.upper()].  (The one context-sensitive rule of
    [lower], the final sigma, chooses between two non-ASCII code points and
    is left to the table.) *)
Definition lower (s : str) : str := flat_map lower_cp s.
Definition upper (s : str) : str := flat_map upper_cp s.

(** [p in s] for strings: [p] occurs in [s] as a contiguous substring. *)
Fixpoint startswith (p s : str) : bool :=
  match p, s with
  | [], _ => true
  | a :: p', b :: s' => (a =? b) && startswith p' s'
  | _ :: _, [] => false
  end.

Fixpoint str_in (p s : str) : bool :=
  startswith p s ||
  match s with
  | [] => false
  | _ :: s' => str_in p s'
  end.

(** ** Regular expressions

    The fragment of [re] syntax that the patterns use.  Quantifiers apply to
    single-character classes only. *)
Inductive cls :=
  | Lit (c : N)     (* a literal character *)
  | UpperAZ         (* [A-Z] *)
  | LowerAZ         (* [a-z] *)
  | Digit           (* \d *)
  | Space.          (* \s *)

Inductive regex :=
  | One (k : cls)              (* k *)
  | Plus (k : cls)             (* k+ *)
  | Star (k : cls)             (* k* *)
  | Opt (k : cls)              (* k? *)
  | Rep (n : nat) (k : cls)    (* k{n} *)
  | WordB                      (* \b *)
  | Group (i : nat) (r : regex)  (* ( r ), capture group number i *)
  | Seq (r1 r2 : regex).       (* r1 r2 *)

Definition cls_ok (k : cls) (c : N) : bool :=
  match k with
  | Lit a => a =? c
  | UpperAZ => is_AZ c
  | LowerAZ => is_az c
  | Digit => is_digit c
  | Space => is_space c
  end.

(** Capture groups: the most recent binding of a group number is first. *)
Definition caps := list (nat * str).

(** One way of matching: the text consumed, the groups, the text left. *)
Definition outcome := (str * caps * str)%type.

Definition push (c : N) (o : str * str) : str * str := (c :: o.1, o.2).

(** Greedy [k*] on [s]: every prefix of the longest run of [k], longest
    first, each with the text that follows it. *)
Fixpoint star_runs (k : cls) (s : str) : list (str * str) :=
  match s with
  | c :: s' =>
      if cls_ok k c then map (push c) (star_runs k s') ++ [([], s)]
      else [([], s)]
  | [] => [([], [])]
  end.

Definition plus_runs (k : cls) (s : str) : list (str * str) :=
  match s with
  | c :: s' => if cls_ok k c then map (push c) (star_runs k s') else []
  | [] => []
  end.

Fixpoint rep_runs (n : nat) (k : cls) (s : str) : list (str * str) :=
  match n with
  | O => [([], s)]
  | S n' =>
      match s with
      | c :: s' => if cls_ok k c then map (push c) (rep_runs n' k s') else []
      | [] => []
      end
  end.

(** The character before the position reached after consuming [m]. *)
Definition prev_after (prev : option N) (m : str) : option N :=
  match last m with
  | Some c => Some c
  | None => prev
  end.

Definition word_opt (o : option N) : bool :=
  match o with
  | Some c => is_word c
  | None => false
  end.

(** [run r prev g s]: all matches of [r] at the start of [s], where [prev]
    is the character before [s] in the text ([None] at the start of the
    text) and [g] the groups captured so far; in backtracking order. *)
Fixpoint run (r : regex) (prev : option N) (g : caps) (s : str) : list outcome :=
  match r with
  | One k =>
      match s with
      | c :: s' => if cls_ok k c then [([c], g, s')] else []
      | [] => []
      end
  | Plus k => map (fun o => (o.1, g, o.2)) (plus_runs k s)
  | Star k => map (fun o => (o.1, g, o.2)) (star_runs k s)
  | Opt k =>
      match s with
      | c :: s' => if cls_ok k c then [([c], g, s'); ([], g, s)] else [([], g, s)]
      | [] => [([], g, s)]
      end
  | Rep n k => map (fun o => (o.1, g, o.2)) (rep_runs n k s)
  | WordB => if xorb (word_opt prev) (word_opt (head s)) then [([], g, s)] else []
  | Group i r1 =>
      map (fun o : outcome => (o.1.1, (i, o.1.1) :: o.1.2, o.2)) (run r1 prev g s)
  | Seq r1 r2 =>
      flat_map (fun o1 : outcome =>
        map (fun o2 : outcome => (o1.1.1 ++ o2.1.1, o2.1.2, o2.2))
            (run r2 (prev_after prev o1.1.1) o1.1.2 o1.2))
        (run r1 prev g s)
  end.

(** A match object: [group(0)] and the numbered groups. *)
Record rmatch := { m_text : str; m_caps : caps }.

Fixpoint cap_lookup (i : nat) (g : caps) : option str :=
  match g with
  | (j, t) :: g' => if Nat.eqb i j then Some t else cap_lookup i g'
  | [] => None
  end.

(** [match.group(i)]; a group that took no part in the match reads as the
    empty string (in the patterns below every group takes part). *)
Definition group (i : nat) (m : rmatch) : str :=
  match i with
  | O => m_text m
  | _ => default [] (cap_lookup i (m_caps m))
  end.

(** [re.match] at one position: the first way of matching, if any. *)
Definition match_at (r : regex) (prev : option N) (s : str) : option rmatch :=
  match run r prev [] s with
  | o :: _ => Some {| m_text := o.1.1; m_caps := o.1.2 |}
  | [] => None
  end.

(** [scan r prev s skip]: the matches found from the position before [s];
    the next [skip] positions lie inside the previous match. *)
Fixpoint scan (r : regex) (prev : option N) (s : str) (skip : nat) : list rmatch :=
  match skip with
  | S k =>
      match s with
      | c :: s' => scan r (Some c) s' k
      | [] => []
      end
  | O =>
      match match_at r prev s with
      | Some m =>
          m :: match s with
               | c :: s' => scan r (Some c) s' (length (m_text m) - 1)
               | [] => []
               end
      | None =>
          match s with
          | c :: s' => scan r (Some c) s' 0
          | [] => []
          end
      end
  end.

(** [re.finditer(pattern, text)] *)
Definition finditer (r : regex) (text : str) : list rmatch := scan r None text 0.

End Unicode.

(** ** The pattern set *)

Declare Scope regex_scope.
Delimit Scope regex_scope with re.
Notation "r1 ;; r2" := (Seq r1 r2)
  (at level 100, r2 at level 200, right associativity) : regex_scope.

Definition lit (a : ascii) : regex := One (Lit (chr a)).

Local Open Scope regex_scope.

(** [([A-Z][a-z]+)] and [(\d{4}[a-z]?)], groups 1 and 2 of every pattern. *)
Definition author_group : regex := Group 1 (One UpperAZ ;; Plus LowerAZ).
Definition year_group : regex := Group 2 (Rep 4 Digit ;; Opt LowerAZ).

(** [\b([A-Z][a-z]+)\s+et\s+al\.?\s*\((\d{4}[a-z]?)\)] *)
Definition pattern_et_al : regex :=
  WordB ;; author_group ;; Plus Space ;; lit "e" ;; lit "t" ;; Plus Space ;;
  lit "a" ;; lit "l" ;; Opt (Lit (chr ".")) ;; Star Space ;;
  lit "(" ;; year_group ;; lit ")".

(** [\b([A-Z][a-z]+)\s+&\s+[A-Z][a-z]+\s*\((\d{4}[a-z]?)\)] *)
Definition pattern_two_authors : regex :=
  WordB ;; author_group ;; Plus Space ;; lit "&" ;; Plus Space ;;
  One UpperAZ ;; Plus LowerAZ ;; Star Space ;;
  lit "(" ;; year_group ;; lit ")".

(** [\b([A-Z][a-z]+)\s*\((\d{4}[a-z]?)\)] *)
Definition pattern_author : regex :=
  WordB ;; author_group ;; Star Space ;; lit "(" ;; year_group ;; lit ")".

(** [\(([A-Z][a-z]+)\s+et\s+al\.?,\s*(\d{4}[a-z]?)\)] *)
Definition pattern_paren_et_al : regex :=
  lit "(" ;; author_group ;; Plus Space ;; lit "e" ;; lit "t" ;; Plus Space ;;
  lit "a" ;; lit "l" ;; Opt (Lit (chr ".")) ;; lit "," ;; Star Space ;;
  year_group ;; lit ")".

(** [\(([A-Z][a-z]+),\s*(\d{4}[a-z]?)\)] *)
Definition pattern_paren : regex :=
  lit "(" ;; author_group ;; lit "," ;; Star Space ;; year_group ;; lit ")".

(** [self.citation_patterns], in registration order. *)
Definition citation_patterns : list regex :=
  [pattern_et_al; pattern_two_authors; pattern_author;
   pattern_paren_et_al; pattern_paren].

(** [arXiv:(\d+\.\d+)] *)
Definition arxiv_pattern : regex :=
  lit "a" ;; lit "r" ;; lit "X" ;; lit "i" ;; lit "v" ;; lit ":" ;;
  Group 1 (Plus Digit ;; lit "." ;; Plus Digit).

Local Close Scope regex_scope.

(** The two normalized forms, [f"{author} et al. ({year})"] and
    [f"{author} ({year})"]. *)
Definition et_al_form (author year : str) : str :=
  author ++ py " et al. (" ++ year ++ py ")".

Definition plain_form (author year : str) : str :=
  author ++ py " (" ++ year ++ py ")".

Definition normalize (author year : str) (has_et_al : bool) : str :=
  if has_et_al then et_al_form author year else plain_form author year.

(** ** Data *)

(** An extraction record of [extract_citations]. *)
Record citation := {
  c_text : str;
  c_normalized : str;
  c_author : str;
  c_year : str
}.

(** A result of [verify_citation], with the three keys [check_text] adds. *)
Record result := {
  r_citation : str;
  r_verified : bool;
  r_suspicious : bool;
  r_suspicious_reason : option str;
  r_status : str;
  r_original_text : str;
  r_author : str;
  r_year : str
}.

(** The dictionary [check_text] returns. *)
Record report := {
  citations_found : nat;
  verified : nat;
  suspicious : nat;
  unverified : nat;
  results : list result;
  all_verified : bool
}.

(** An entry of the JSON suspicious list; a key that is absent is [None]. *)
Record item := {
  line : option str;
  reason : option str
}.

(** The JSON suspicious list: the buckets ["high"] and ["medium"]. *)
Record suspicious_data := {
  high : option (list item);
  medium : option (list item)
}.

(** The files the checker reads at start-up, in the order it reads them. *)
Record sources := {
  correction_files : list (option str);
  bib_file : option str;
  pdf_reviews : list (option str);
  consensus_files : list (option str);
  suspicious_file : option suspicious_data;
  fabricated_file : option str
}.

(** The state of a [CitationChecker]. *)
Record checker := {
  verified_citations : gset str;
  suspicious_citations : gmap str str
}.

Definition STATUS_VERIFIED : str := py "✅ VERIFIED".
Definition STATUS_VERIFIED_BUT_FLAGGED : str := py "⚠️ VERIFIED BUT FLAGGED".
Definition STATUS_SUSPICIOUS : str := py "❌ SUSPICIOUS".
Definition STATUS_UNVERIFIED : str := py "❓ UNVERIFIED".

Section Checker.
Variable U : unicode.

(** ** Knowledge base *)

(** The body of the loops over patterns and matches that add both forms of
    each match to a set. *)
Definition add_both (citations : gset str) (m : rmatch) : gset str :=
  let author := group 1 m in
  let year := group 2 m in
  {[plain_form author year]} ∪ ({[et_al_form author year]} ∪ citations).

Definition scan_into_set (content : str) (citations : gset str) : gset str :=
  fold_left (fun acc pattern => fold_left add_both (finditer U pattern content) acc)
            citation_patterns citations.

Definition _extract_citations_from_file (file : option str) : gset str :=
  match file with
  | Some content => scan_into_set content ∅
  | None => ∅
  end.

Definition _extract_verified_from_review (file : option str) : gset str :=
  match file with
  | Some content =>
      if negb (str_in (py "✅") content) || negb (str_in (py "VERIFIED") (upper U content))
      then ∅
      else scan_into_set content ∅
  | None => ∅
  end.

Definition update_all (f : option str -> gset str) (files : list (option str))
    (verified : gset str) : gset str :=
  fold_left (fun acc filepath => acc ∪ f filepath) files verified.

Definition _load_verified_citations (src : sources) : gset str :=
  let verified := ∅ in
  let verified := update_all _extract_citations_from_file (correction_files src) verified in
  let verified := verified ∪ _extract_citations_from_file (bib_file src) in
  let verified := update_all _extract_verified_from_review (pdf_reviews src) verified in
  let verified := update_all _extract_citations_from_file (consensus_files src) verified in
  verified.

(** The body of the loops that map both forms of each match to a reason. *)
Definition flag_both (why : str) (suspicious : gmap str str) (m : rmatch) : gmap str str :=
  let author := group 1 m in
  let year := group 2 m in
  <[plain_form author year := why]> (<[et_al_form author year := why]> suspicious).

Definition scan_into_map (why : str) (content : str) (suspicious : gmap str str) : gmap str str :=
  fold_left (fun acc pattern => fold_left (flag_both why) (finditer U pattern content) acc)
            citation_patterns suspicious.

Definition flag_item (suspicious : gmap str str) (it : item) : gmap str str :=
  scan_into_map (default (py "Unknown reason") (reason it))
                (default [] (line it)) suspicious.

Definition flag_arxiv (suspicious : gmap str str) (m : rmatch) : gmap str str :=
  let arxiv_id := group 1 m in
  <[py "arXiv:" ++ arxiv_id := py "FABRICATED arXiv ID (404)"]> suspicious.

Definition _load_suspicious_citations (src : sources) : gmap str str :=
  let suspicious := ∅ in
  let suspicious :=
    match suspicious_file src with
    | Some data =>
        fold_left flag_item (default [] (high data) ++ default [] (medium data)) suspicious
    | None => suspicious
    end in
  let suspicious :=
    match fabricated_file src with
    | Some content =>
        let suspicious :=
          scan_into_map (py "FABRICATED - See COMMONLY_HALLUCINATED_CITATIONS.md")
                        content suspicious in
        fold_left flag_arxiv (finditer U arxiv_pattern content) suspicious
    | None => suspicious
    end in
  suspicious.

(** [CitationChecker.__init__] *)
Definition init (src : sources) : checker :=
  {| verified_citations := _load_verified_citations src;
     suspicious_citations := _load_suspicious_citations src |}.

(** ** Extraction *)

(** The state of the loops of [extract_citations]: the list [citations] and
    the set [seen]. *)
Definition extract_step (st : list citation * gset str) (m : rmatch)
    : list citation * gset str :=
  let citation_text := group 0 m in
  let author := group 1 m in
  let year := group 2 m in
  let normalized :=
    if str_in (py "et al") (lower U citation_text)
    then et_al_form author year
    else plain_form author year in
  if decide (normalized ∈ st.2) then st
  else (st.1 ++ [{| c_text := citation_text; c_normalized := normalized;
                    c_author := author; c_year := year |}],
        {[normalized]} ∪ st.2).

Definition extract_citations (text : str) : list citation :=
  (fold_left (fun st pattern => fold_left extract_step (finditer U pattern text) st)
             citation_patterns ([], ∅)).1.

(** ** Verification *)

Definition _get_status (verified suspicious : bool) : str :=
  if verified && negb suspicious then STATUS_VERIFIED
  else if verified && suspicious then STATUS_VERIFIED_BUT_FLAGGED
  else if suspicious then STATUS_SUSPICIOUS
  else STATUS_UNVERIFIED.

(** [verify_citation], with the keys [check_text] fills in taken as
    arguments. *)
Definition verify_citation (self : checker) (citation : str)
    (original_text author year : str) : result :=
  let is_verified := bool_decide (citation ∈ verified_citations self) in
  let is_suspicious := bool_decide (citation ∈ dom (suspicious_citations self)) in
  let suspicious_reason := suspicious_citations self !! citation in
  {| r_citation := citation;
     r_verified := is_verified;
     r_suspicious := is_suspicious;
     r_suspicious_reason := suspicious_reason;
     r_status := _get_status is_verified is_suspicious;
     r_original_text := original_text;
     r_author := author;
     r_year := year |}.

Definition count (f : result -> bool) (rs : list result) : nat :=
  length (filter (fun r => f r = true) rs).

Definition check_text (self : checker) (text : str) : report :=
  let citations := extract_citations text in
  let results :=
    map (fun c => verify_citation self (c_normalized c) (c_text c) (c_author c) (c_year c))
        citations in
  let verified_count := count r_verified results in
  let suspicious_count := count r_suspicious results in
  let unverified_count :=
    count (fun r => negb (r_verified r) && negb (r_suspicious r)) results in
  {| citations_found := length results;
     verified := verified_count;
     suspicious := suspicious_count;
     unverified := unverified_count;
     results := results;
     all_verified := Nat.eqb unverified_count 0 && Nat.eqb suspicious_count 0 |}.

End Checker.

(** ** Inputs of the scenarios *)

(** A checker whose knowledge base is empty. *)
Definition empty_checker : checker :=
  {| verified_citations := ∅; suspicious_citations := ∅ |}.

Definition no_sources : sources :=
  {| correction_files := []; bib_file := None; pdf_reviews := [];
     consensus_files := []; suspicious_file := None; fabricated_file := None |}.

(** The text of the test case "Multiple citation formats". *)
Definition multiple_formats_text : str := py "
        Smith (2024) found significant results.
        This was confirmed by Jones et al. (2023).
        Earlier work (Wilson & Chen, 2022) suggested similar findings.
        ".

(** The text of the test case "No citations". *)
Definition no_citations_text : str :=
  py "This is just regular text without any academic references.".

(** One correction file that holds "Smith et al. (2024)" and nothing else. *)
Definition one_correction_source : sources :=
  {| correction_files := [Some (py "Smith et al. (2024)")]; bib_file := None;
     pdf_reviews := []; consensus_files := []; suspicious_file := None;
     fabricated_file := None |}.

(** A suspicious list with one entry, in the bucket "high" or "medium". *)
Definition lee_entry : item :=
  {| line := Some (py "Lee et al. (2021)"); reason := Some (py "retracted") |}.

Definition one_suspicious_source (in_high : bool) : sources :=
  {| correction_files := []; bib_file := None; pdf_reviews := [];
     consensus_files := [];
     suspicious_file :=
       Some (if in_high then {| high := Some [lee_entry]; medium := None |}
             else {| high := None; medium := Some [lee_entry] |});
     fabricated_file := None |}.

(** ** Vocabulary of the properties *)

(** All matches of all patterns, in the order the loops visit them. *)
Definition raw_matches (U : unicode) (text : str) : list rmatch :=
  flat_map (fun pattern => finditer U pattern text) citation_patterns.

(** The author token: a capital letter, then one or more small letters. *)
Definition is_author (s : str) : bool :=
  match s with
  | a :: b :: l => is_AZ a && forallb is_az (b :: l)
  | _ => false
  end.

(** The year token: four digits, then at most one small letter. *)
Definition is_year (U : unicode) (s : str) : bool :=
  match s with
  | [d1; d2; d3; d4] =>
      is_digit U d1 && is_digit U d2 && is_digit U d3 && is_digit U d4
  | [d1; d2; d3; d4; x] =>
      is_digit U d1 && is_digit U d2 && is_digit U d3 && is_digit U d4 && is_az x
  | _ => false
  end.

(** What it means for a text [t] to match [r] with the groups [gs] (newest
    first), position aside: the language of [r], read off its syntax. *)
Fixpoint matches (U : unicode) (r : regex) (t : str) (gs : caps) : Prop :=
  match r with
  | One k => (∃ c, t = [c] ∧ cls_ok U k c = true) ∧ gs = []
  | Plus k => t ≠ [] ∧ Forall (fun c => cls_ok U k c = true) t ∧ gs = []
  | Star k => Forall (fun c => cls_ok U k c = true) t ∧ gs = []
  | Opt k => (t = [] ∨ ∃ c, t = [c] ∧ cls_ok U k c = true) ∧ gs = []
  | Rep n k => length t = n ∧ Forall (fun c => cls_ok U k c = true) t ∧ gs = []
  | WordB => t = [] ∧ gs = []
  | Group i r1 => ∃ g1, matches U r1 t g1 ∧ gs = (i, t) :: g1
  | Seq r1 r2 =>
      ∃ t1 t2 g1 g2,
        t = t1 ++ t2 ∧ matches U r1 t1 g1 ∧ matches U r2 t2 g2 ∧ gs = g2 ++ g1
  end.

(** The et-al flag of a match, the key and the record made from it, and
    the tuple the key is computed from. *)
Definition has_et_al (U : unicode) (m : rmatch) : bool :=
  str_in (py "et al") (lower U (group 0 m)).

Definition normalized_of (U : unicode) (m : rmatch) : str :=
  normalize (group 1 m) (group 2 m) (has_et_al U m).

Definition record_of (U : unicode) (m : rmatch) : citation :=
  {| c_text := group 0 m; c_normalized := normalized_of U m;
     c_author := group 1 m; c_year := group 2 m |}.

Definition tuple_of (U : unicode) (m : rmatch) : str * str * bool :=
  (group 1 m, group 2 m, has_et_al U m).

(** Whether [r] can match the empty text, and whether a match of [r] can
    begin with the character [c]. *)
Fixpoint nullable (r : regex) : bool :=
  match r with
  | One _ | Plus _ => false
  | Star _ | Opt _ | WordB => true
  | Rep n _ => match n with O => true | S _ => false end
  | Group _ r1 => nullable r1
  | Seq r1 r2 => nullable r1 && nullable r2
  end.

Fixpoint can_start (U : unicode) (r : regex) (c : N) : bool :=
  match r with
  | One k | Plus k | Star k | Opt k => cls_ok U k c
  | Rep n k => match n with O => false | S _ => cls_ok U k c end
  | WordB => false
  | Group _ r1 => can_start U r1 c
  | Seq r1 r2 => can_start U r1 c || (nullable r1 && can_start U r2 c)
  end.

(** The longest run of [k] at the start of [s], and what follows it. *)
Fixpoint munch (U : unicode) (k : cls) (s : str) : str * str :=
  match s with
  | c :: s' => if cls_ok U k c then push c (munch U k s') else ([], s)
  | [] => ([], [])
  end.

(** Prefixing the text of an outcome. *)
Definition prepend (t : str) (o : outcome) : outcome := (t ++ o.1.1, o.1.2, o.2).

(** ** Command line *)

(** The namespace [parser.parse_args()] returns: one of [--text], [--file],
    [--stdin] is required, and a path is kept as the text of its name. *)
Record arguments := {
  args_text : option str;
  args_file : option str;
  args_stdin : bool;
  args_json : bool;
  args_quiet : bool
}.

(** What [main] reads: the knowledge-base files under the repository root,
    the files a path may name ([None] when [read_text] raises) and the
    standard input. *)
Record environment := {
  env_sources : sources;
  env_read_text : str -> option str;
  env_stdin : str
}.

(** How [main] ends: [sys.exit(code)] after writing [stdout], or an
    exception of [read_text] that nothing catches.  (The warnings of the
    loaders go to the standard error and are left out.) *)
Inductive ending :=
  | SystemExit (stdout : str) (code : nat)
  | Raised.

(** [str(n)] for a count. *)
Definition str_of_nat (n : nat) : str :=
  py (DecimalString.NilEmpty.string_of_uint (Nat.to_uint n)).

(** What [print(s)] writes. *)
Definition print (s : str) : str := s ++ [10].

(** Truth value of an optional string: [None] and [''] are false. *)
Definition truthy (s : option str) : bool :=
  match s with
  | Some (_ :: _) => true
  | _ => false
  end.

(** The lines printed for one result, numbered [i]. *)
Definition print_result (i : nat) (r : result) : str :=
  print ([10] ++ str_of_nat i ++ py ". " ++ r_original_text r) ++
  print (py "   Status: " ++ r_status r) ++
  (if truthy (r_suspicious_reason r)
   then print (py "   Reason: " ++ default [] (r_suspicious_reason r)) else []) ++
  (if negb (r_verified r) && negb (r_suspicious r)
   then print (py "   ⚠️  Not found in verified database - possible hallucination")
   else []).

(** The loop over [enumerate(results['results'], i)]. *)
Fixpoint print_results (i : nat) (rs : list result) : str :=
  match rs with
  | r :: rs' => print_result i r ++ print_results (S i) rs'
  | [] => []
  end.

(** The human-readable report. *)
Definition print_report (results_ : report) : str :=
  print ([10] ++ py "⚠️  CITATION VERIFICATION REPORT") ++
  print (repeat (chr "=") 60) ++
  print (py "Citations found: " ++ str_of_nat (citations_found results_)) ++
  print (py "✅ Verified: " ++ str_of_nat (verified results_)) ++
  print (py "❓ Unverified: " ++ str_of_nat (unverified results_)) ++
  print (py "❌ Suspicious: " ++ str_of_nat (suspicious results_)) ++
  print [] ++
  (match results results_ with
   | _ :: _ =>
       print (py "DETAILS:") ++
       print (repeat (chr "-") 60) ++
       print_results 1 (results results_)
   | [] => print (py "No citations detected.")
   end) ++
  print ([10] ++ repeat (chr "=") 60) ++
  (if negb (all_verified results_)
   then print (py "⚠️  WARNING: Unverified or suspicious citations detected!") ++
        print (py "These may be hallucinated. Please verify manually.")
   else []).

Section Main.
Variable U : unicode.

(** [json.dumps(results, indent=2)], a function of the standard library. *)
Variable dumps : report -> str.

(** The text to check: [--text] when it is not empty, else the file of
    [--file], else the standard input. *)
Definition read_input (args : arguments) (env : environment) : option str :=
  if truthy (args_text args) then args_text args
  else match args_file args with
       | Some path => env_read_text env path
       | None => Some (env_stdin env)
       end.

Definition exit_code (results_ : report) : nat :=
  if all_verified results_ then 0%nat else 1%nat.

Definition main (args : arguments) (env : environment) : ending :=
  match read_input args env with
  | None => Raised
  | Some text =>
      let checker := init U (env_sources env) in
      let results_ := check_text U checker text in
      if args_quiet args then SystemExit [] (exit_code results_)
      else
        SystemExit (if args_json args then print (dumps results_)
                    else print_report results_)
                   (exit_code results_)
  end.

End Main.

(** The texts the verified set is built from: the files that could be read,
    a review only when it carries both marks. *)
Definition review_verified (U : unicode) (content : str) : bool :=
  str_in (py "✅") content && str_in (py "VERIFIED") (upper U content).

Definition trusted_texts (U : unicode) (src : sources) : list str :=
  omap id (correction_files src) ++
  option_list (bib_file src) ++
  filter (fun content => review_verified U content = true) (omap id (pdf_reviews src)) ++
  omap id (consensus_files src).

(** [p] is a contiguous part of [s]. *)
Definition substring (p s : str) : Prop := ∃ a b, s = a ++ p ++ b.

(** A key is one of the two forms of a match. *)
Definition form_of (m : rmatch) (k : str) : Prop :=
  k = et_al_form (group 1 m) (group 2 m) ∨ k = plain_form (group 1 m) (group 2 m).

(** The files of a list that could be read. *)
Definition readable (files : list (option str)) : list (option str) :=
  filter (fun file => is_Some file) files.

(** Both forms of every author-year pair have the same entry. *)
Definition forms_paired (suspicious : gmap str str) : Prop :=
  ∀ a y, is_author a = true →
         suspicious !! et_al_form a y = suspicious !! plain_form a y.

(** A key of canonical shape: one of the two forms of an author token and
    a year token. *)
Definition canonical (U : unicode) (k : str) : Prop :=
  ∃ a y, is_author a = true ∧ is_year U y = true ∧
         (k = et_al_form a y ∨ k = plain_form a y).

(** An arXiv key: ["arXiv:"], digits, a dot, digits. *)
Definition arxiv_key (U : unicode) (k : str) : Prop :=
  ∃ d1 d2, k = py "arXiv:" ++ d1 ++ [46] ++ d2 ∧ d1 ≠ [] ∧ d2 ≠ [] ∧
           Forall (fun c => is_digit U c = true) d1 ∧
           Forall (fun c => is_digit U c = true) d2.

(** The two fixed reasons of the fabrication list. *)
Abbreviation REASON_FABRICATED :=
  (py "FABRICATED - See COMMONLY_HALLUCINATED_CITATIONS.md").

Abbreviation REASON_ARXIV := (py "FABRICATED arXiv ID (404)").

(** Every key of the map has the canonical shape or is an arXiv key. *)
Definition keys_shaped (U : unicode) (suspicious : gmap str str) : Prop :=
  ∀ k, is_Some (suspicious !! k) → canonical U k ∨ arxiv_key U k.

(** The entries of the suspicious list, in the order the loop visits them. *)
Definition entries (data : suspicious_data) : list item :=
  default [] (high data) ++ default [] (medium data).

(** No match of a text has the key as one of its forms. *)
Definition unmentioned (U : unicode) (k : str) (content : str) : Prop :=
  Forall (fun m => ¬ form_of m k) (raw_matches U content).


(** A suspicious list with the same citation in both buckets. *)
Definition lee_twice_source : sources :=
  {| correction_files := []; bib_file := None; pdf_reviews := [];
     consensus_files := [];
     suspicious_file :=
       Some {| high := Some [lee_entry];
               medium := Some [{| line := Some (py "See Lee (2021).");
                                  reason := Some (py "disputed") |}] |};
     fabricated_file := None |}.

(** * Properties *)

(** ** Folds *)

Lemma fold_left_flat_map {A B C} (f : A -> C -> A) (g : B -> list C) (l : list B) (a : A) :
  fold_left (fun acc x => fold_left f (g x) acc) l a = fold_left f (flat_map g l) a.
Proof.
  revert a. induction l as [|x l IH]; intros a; simpl; [done|].
  by rewrite fold_left_app, IH.
Qed.

Lemma extract_citations_fold U text :
  extract_citations U text = (fold_left (extract_step U) (raw_matches U text) ([], ∅)).1.
Proof. unfold extract_citations, raw_matches. by rewrite fold_left_flat_map. Qed.

Lemma scan_into_map_fold U why content acc :
  scan_into_map U why content acc = fold_left (flag_both why) (raw_matches U content) acc.
Proof. unfold scan_into_map, raw_matches. by rewrite fold_left_flat_map. Qed.

(** ** Verifier and report *)

Lemma statuses_distinct :
  STATUS_VERIFIED ≠ STATUS_VERIFIED_BUT_FLAGGED ∧
  STATUS_VERIFIED ≠ STATUS_SUSPICIOUS ∧
  STATUS_VERIFIED ≠ STATUS_UNVERIFIED ∧
  STATUS_VERIFIED_BUT_FLAGGED ≠ STATUS_SUSPICIOUS ∧
  STATUS_VERIFIED_BUT_FLAGGED ≠ STATUS_UNVERIFIED ∧
  STATUS_SUSPICIOUS ≠ STATUS_UNVERIFIED.
Proof. repeat split; vm_compute; discriminate. Qed.

(** C1. The status of [verify_citation] is the 2x2 matrix over exact
    membership of the key in the verified set and among the keys of the
    suspicious map: the two flags are exactly these memberships, the reason
    is the map's entry for the key, and each of the four statuses is returned
    in exactly one cell (a key in both is VERIFIED BUT FLAGGED, and so
    neither VERIFIED nor SUSPICIOUS). *)
Theorem verify_citation_matrix (self : checker) (citation text author year : str) :
  (r_verified (verify_citation self citation text author year) = true
     ↔ citation ∈ verified_citations self) ∧
  (r_suspicious (verify_citation self citation text author year) = true
     ↔ citation ∈ dom (suspicious_citations self)) ∧
  r_suspicious_reason (verify_citation self citation text author year)
     = suspicious_citations self !! citation ∧
  (r_status (verify_citation self citation text author year) = STATUS_VERIFIED
     ↔ citation ∈ verified_citations self ∧ (citation ∉ dom (suspicious_citations self))) ∧
  (r_status (verify_citation self citation text author year) = STATUS_VERIFIED_BUT_FLAGGED
     ↔ citation ∈ verified_citations self ∧ citation ∈ dom (suspicious_citations self)) ∧
  (r_status (verify_citation self citation text author year) = STATUS_SUSPICIOUS
     ↔ (citation ∉ verified_citations self) ∧ citation ∈ dom (suspicious_citations self)) ∧
  (r_status (verify_citation self citation text author year) = STATUS_UNVERIFIED
     ↔ (citation ∉ verified_citations self) ∧ (citation ∉ dom (suspicious_citations self))).
Proof.
  destruct statuses_distinct as (D1 & D2 & D3 & D4 & D5 & D6).
  unfold verify_citation; simpl.
  rewrite !bool_decide_eq_true.
  split; [done|]. split; [done|]. split; [done|].
  unfold _get_status.
  destruct (bool_decide_reflect (citation ∈ verified_citations self)) as [Hv|Hv],
           (bool_decide_reflect (citation ∈ dom (suspicious_citations self))) as [Hs|Hs];
    simpl; repeat split; intros; try done; try tauto; exfalso;
    repeat match goal with
           | H : _ ∧ _ |- _ => destruct H
           end; try tauto; congruence.
Qed.

Lemma count_cons (f : result -> bool) r rs :
  count f (r :: rs) = ((if f r then 1 else 0) + count f rs)%nat.
Proof.
  unfold count. rewrite filter_cons.
  destruct (decide (f r = true)) as [->|Hf]; [done|].
  by destruct (f r).
Qed.

Lemma count_flags (rs : list result) :
  (count r_verified rs + count r_suspicious rs
     + count (fun r => negb (r_verified r) && negb (r_suspicious r)) rs
   = length rs + count (fun r => r_verified r && r_suspicious r) rs)%nat.
Proof.
  induction rs as [|r rs IH]; [done|].
  rewrite !count_cons. simpl length.
  destruct (r_verified r), (r_suspicious r); simpl; lia.
Qed.

(** C2. In the report of [check_text], [verified] counts the results whose
    verified flag is set, [suspicious] those whose suspicious flag is set,
    [unverified] those with neither flag; [all_verified] holds exactly when
    [unverified] and [suspicious] are both 0; and the three counts add up to
    [citations_found] plus the number of results with both flags set. *)
Theorem check_text_counts (U : unicode) (self : checker) (text : str) :
  citations_found (check_text U self text) = length (results (check_text U self text)) ∧
  verified (check_text U self text)
    = length (filter (fun r => r_verified r = true) (results (check_text U self text))) ∧
  suspicious (check_text U self text)
    = length (filter (fun r => r_suspicious r = true) (results (check_text U self text))) ∧
  unverified (check_text U self text)
    = length (filter (fun r => r_verified r = false ∧ r_suspicious r = false)
                     (results (check_text U self text))) ∧
  (all_verified (check_text U self text) = true
     ↔ unverified (check_text U self text) = 0%nat
       ∧ suspicious (check_text U self text) = 0%nat) ∧
  (verified (check_text U self text) + suspicious (check_text U self text)
     + unverified (check_text U self text)
   = citations_found (check_text U self text)
     + length (filter (fun r => r_verified r = true ∧ r_suspicious r = true)
                      (results (check_text U self text))))%nat.
Proof.
  unfold check_text; simpl.
  set (rs := map _ (extract_citations U text)).
  assert (Hcount : ∀ (f : result -> bool) (P : result -> Prop) `{!∀ r, Decision (P r)},
            (∀ r, f r = true ↔ P r) → count f rs = length (filter P rs)).
  { intros f P HP Hf. unfold count. induction rs as [|r l IH]; [done|].
    rewrite !filter_cons. specialize (Hf r).
    destruct (decide (f r = true)), (decide (P r)); simpl; try tauto; by rewrite IH. }
  split; [done|]. split; [done|]. split; [done|].
  split.
  { apply Hcount. intros r. destruct (r_verified r), (r_suspicious r); simpl; intuition congruence. }
  split.
  { rewrite andb_true_iff, !Nat.eqb_eq. done. }
  rewrite count_flags. f_equal.
  apply Hcount. intros r. destruct (r_verified r), (r_suspicious r); simpl; intuition congruence.
Qed.

(** ** Scenarios *)

(** With no file to read, the knowledge base is empty. *)
Lemma init_no_sources (U : unicode) : init U no_sources = empty_checker.
Proof. reflexivity. Qed.

(** C3. On the text of the test case "Multiple citation formats", which
    holds "Smith (2024)", "Jones et al. (2023)" and "(Wilson & Chen, 2022)",
    the checker with an empty knowledge base finds two citations, not three:
    no pattern matches "(Wilson & Chen, 2022)". *)
Theorem multiple_formats_finds_two (U : unicode) :
  citations_found (check_text U empty_checker multiple_formats_text) = 2%nat ∧
  map c_normalized (extract_citations U multiple_formats_text)
    = [py "Jones et al. (2023)"; py "Smith (2024)"] ∧
  raw_matches U (py "(Wilson & Chen, 2022)") = [].
Proof. by vm_compute. Qed.

(** C4. With one correction file that holds only "Smith et al. (2024)", both
    forms are in the verified set, and each of the texts
    "Smith et al. (2024) showed X." and "Smith (2024) showed X." yields one
    result, with status VERIFIED. *)
Theorem one_source_verifies_both_forms (U : unicode) :
  verified_citations (init U one_correction_source)
    = {[py "Smith et al. (2024)"; py "Smith (2024)"]} ∧
  suspicious_citations (init U one_correction_source) = ∅ ∧
  map (fun r => (r_citation r, r_status r))
      (results (check_text U (init U one_correction_source)
                           (py "Smith et al. (2024) showed X.")))
    = [(py "Smith et al. (2024)", STATUS_VERIFIED)] ∧
  map (fun r => (r_citation r, r_status r))
      (results (check_text U (init U one_correction_source)
                           (py "Smith (2024) showed X.")))
    = [(py "Smith (2024)", STATUS_VERIFIED)].
Proof.
  split.
  { apply set_eq. intros k. vm_compute. set_solver. }
  split; [done|].
  split; by vm_compute.
Qed.

(** ** The matcher *)

Section Matcher.
Variable U : unicode.

Lemma star_runs_sound k s t rest :
  (t, rest) ∈ star_runs U k s →
  Forall (fun c => cls_ok U k c = true) t ∧ s = t ++ rest.
Proof.
  revert t rest. induction s as [|c s IH]; intros t rest; simpl.
  - rewrite list_elem_of_singleton. by intros [= -> ->].
  - destruct (cls_ok U k c) eqn:Hc.
    + rewrite elem_of_app, list_elem_of_fmap, list_elem_of_singleton.
      intros [([t' rest'] & [= -> ->] & Hin)|[= -> ->]]; [|done].
      destruct (IH _ _ Hin) as [Hall ->]. simpl. by split; [constructor|].
    + rewrite list_elem_of_singleton. by intros [= -> ->].
Qed.

Lemma plus_runs_sound k s t rest :
  (t, rest) ∈ plus_runs U k s →
  t ≠ [] ∧ Forall (fun c => cls_ok U k c = true) t ∧ s = t ++ rest.
Proof.
  destruct s as [|c s]; simpl; [by rewrite elem_of_nil|].
  destruct (cls_ok U k c) eqn:Hc; [|by rewrite elem_of_nil].
  rewrite list_elem_of_fmap. intros ([t' rest'] & [= -> ->] & Hin).
  destruct (star_runs_sound _ _ _ _ Hin) as [Hall ->]. simpl.
  by split; [|split; [constructor|]].
Qed.

Lemma rep_runs_sound n k s t rest :
  (t, rest) ∈ rep_runs U n k s →
  length t = n ∧ Forall (fun c => cls_ok U k c = true) t ∧ s = t ++ rest.
Proof.
  revert s t rest. induction n as [|n IH]; intros s t rest; simpl.
  - rewrite list_elem_of_singleton. by intros [= -> ->].
  - destruct s as [|c s]; [by rewrite elem_of_nil|].
    destruct (cls_ok U k c) eqn:Hc; [|by rewrite elem_of_nil].
    rewrite list_elem_of_fmap. intros ([t' rest'] & [= -> ->] & Hin).
    destruct (IH _ _ _ Hin) as (Hlen & Hall & ->). simpl.
    by split; [rewrite Hlen|split; [constructor|]].
Qed.

(** Every outcome of the matcher is a match of the pattern: the consumed
    text is in its language and is a prefix of the input, and the groups
    are those of the match on top of the groups passed in. *)
Lemma run_sound r prev g s (o : outcome) :
  o ∈ run U r prev g s →
  ∃ gs, matches U r o.1.1 gs ∧ o.1.2 = gs ++ g ∧ s = o.1.1 ++ o.2.
Proof.
  revert prev g s o.
  induction r as [k|k|k|k|n k| |i r IH|r1 IH1 r2 IH2]; intros prev g s o; simpl.
  - destruct s as [|c s]; [by rewrite elem_of_nil|].
    destruct (cls_ok U k c) eqn:Hc; [|by rewrite elem_of_nil].
    rewrite list_elem_of_singleton. intros ->. exists []. simpl. naive_solver.
  - rewrite list_elem_of_fmap. intros ([t rest] & -> & Hin).
    destruct (plus_runs_sound _ _ _ _ Hin) as (? & ? & ->). by exists [].
  - rewrite list_elem_of_fmap. intros ([t rest] & -> & Hin).
    destruct (star_runs_sound _ _ _ _ Hin) as (? & ->). by exists [].
  - assert (Hnone : o ∈ [(([] : str), g, s)] →
      ∃ gs, ((o.1.1 = [] ∨ ∃ c, o.1.1 = [c] ∧ cls_ok U k c = true) ∧ gs = [])
            ∧ o.1.2 = gs ++ g ∧ s = o.1.1 ++ o.2).
    { rewrite list_elem_of_singleton. intros ->. exists []. simpl. naive_solver. }
    destruct s as [|c s]; [done|].
    destruct (cls_ok U k c) eqn:Hc; [|done].
    rewrite elem_of_cons. intros [->|Hin]; [|by apply Hnone].
    exists []. simpl. naive_solver.
  - rewrite list_elem_of_fmap. intros ([t rest] & -> & Hin).
    destruct (rep_runs_sound _ _ _ _ _ Hin) as (? & ? & ->). by exists [].
  - destruct (xorb _ _); [|by rewrite elem_of_nil].
    rewrite list_elem_of_singleton. intros ->. by exists [].
  - rewrite list_elem_of_fmap. intros (o1 & -> & Hin).
    destruct (IH _ _ _ _ Hin) as (gs & Hm & Hg & Hs). simpl.
    exists ((i, o1.1.1) :: gs). rewrite Hg. eauto.
  - rewrite list_elem_of_In, in_flat_map.
    intros (o1 & Hin1%list_elem_of_In & Hin%list_elem_of_In).
    apply list_elem_of_fmap in Hin as (o2 & -> & Hin2).
    destruct (IH1 _ _ _ _ Hin1) as (gs1 & Hm1 & Hg1 & Hs1).
    destruct (IH2 _ _ _ _ Hin2) as (gs2 & Hm2 & Hg2 & Hs2). simpl.
    exists (gs2 ++ gs1). split; [by eauto 10|].
    rewrite Hg2, Hg1, Hs1, Hs2, <- !app_assoc. done.
Qed.

Lemma match_at_sound r prev s m :
  match_at U r prev s = Some m → matches U r (m_text m) (m_caps m).
Proof.
  unfold match_at. destruct (run U r prev [] s) as [|o l] eqn:Hrun; [done|].
  intros [= <-]. simpl.
  destruct (run_sound r prev [] s o) as (gs & Hm & Hg & _).
  { rewrite Hrun. left. }
  by rewrite Hg, app_nil_r.
Qed.

(** Every match [finditer] yields was found by [match_at] at some position. *)
Lemma scan_found r prev s skip m :
  m ∈ scan U r prev s skip → ∃ prev' s', match_at U r prev' s' = Some m.
Proof.
  revert prev skip. induction s as [|c s IH]; intros prev skip; simpl.
  - destruct skip; [|by rewrite elem_of_nil].
    destruct (match_at U r prev []) eqn:Hm; [|by rewrite elem_of_nil].
    rewrite list_elem_of_singleton. intros ->. eauto.
  - destruct skip as [|k]; [|by apply IH].
    destruct (match_at U r prev (c :: s)) eqn:Hm; [|by apply IH].
    rewrite elem_of_cons. intros [->|Hin]; [eauto|by eapply IH].
Qed.

Lemma finditer_sound r text m :
  m ∈ finditer U r text → matches U r (m_text m) (m_caps m).
Proof.
  intros (prev & s & Hm)%scan_found. by eapply match_at_sound.
Qed.

Lemma Forall_forallb (P : N -> bool) (l : str) :
  Forall (fun c => P c = true) l → forallb P l = true.
Proof. induction 1; simpl; [done|]. by apply andb_true_iff. Qed.

Lemma is_author_intro a l :
  is_AZ a = true → l ≠ [] → Forall (fun c => is_az c = true) l → is_author (a :: l) = true.
Proof.
  intros Ha Hl Hall. destruct l as [|b l]; [done|].
  unfold is_author. by rewrite Ha, Forall_forallb.
Qed.

Lemma is_year_intro d x :
  length d = 4%nat → Forall (fun c => is_digit U c = true) d →
  (x = [] ∨ ∃ c, x = [c] ∧ is_az c = true) → is_year U (d ++ x) = true.
Proof.
  intros Hlen Hall Hx.
  destruct d as [|d1 [|d2 [|d3 [|d4 [|d5 d]]]]]; try done.
  apply Forall_cons in Hall as [H1 Hall]. apply Forall_cons in Hall as [H2 Hall].
  apply Forall_cons in Hall as [H3 Hall]. apply Forall_cons in Hall as [H4 _].
  destruct Hx as [->|(c & -> & Hc)]; simpl; rewrite H1, H2, H3, H4; [done|].
  by rewrite Hc.
Qed.

(** What a match of a citation pattern looks like: group 1 is an author
    token, group 2 a year token, and the text is not empty. *)
Lemma citation_pattern_shape p t gs :
  p ∈ citation_patterns → matches U p t gs →
  t ≠ [] ∧
  (∃ a, cap_lookup 1 gs = Some a ∧ is_author a = true) ∧
  (∃ y, cap_lookup 2 gs = Some y ∧ is_year U y = true).
Proof.
  unfold citation_patterns. rewrite !elem_of_cons, elem_of_nil.
  intros [->|[->|[->|[->|[->|[]]]]]]; simpl; intros Hm;
    repeat match goal with
           | H : ∃ _, _ |- _ => destruct H
           | H : _ ∧ _ |- _ => destruct H
           end; subst; simpl.
  all: split; [done|]; split; eexists; (split; [done|]);
    eauto using is_author_intro, is_year_intro.
Qed.

End Matcher.

(** ** Extraction *)

Lemma et_al_form_eq author year :
  et_al_form author year
  = author ++ 32 :: 101 :: 116 :: 32 :: 97 :: 108 :: 46 :: 32 :: 40 :: year ++ [41].
Proof. reflexivity. Qed.

Lemma plain_form_eq author year :
  plain_form author year = author ++ 32 :: 40 :: year ++ [41].
Proof. reflexivity. Qed.

Lemma is_author_chars a :
  is_author a = true →
  ∃ c l, a = c :: l ∧ is_AZ c = true ∧ l ≠ [] ∧ Forall (fun x => is_az x = true) l.
Proof.
  destruct a as [|c [|b l]]; try done. unfold is_author.
  rewrite andb_true_iff, forallb_forall. intros [Hc Hl].
  exists c, (b :: l). split; [done|]. split; [done|]. split; [done|].
  apply Forall_forall. intros x Hx. by apply Hl, list_elem_of_In.
Qed.

Lemma is_author_no_space a : is_author a = true → 32 ∉ a.
Proof.
  intros (c & l & -> & Hc & _ & Hl)%is_author_chars.
  rewrite Forall_forall in Hl.
  intros [<-|Hin%Hl]%elem_of_cons; by vm_compute in *.
Qed.

(** Two texts that agree up to their first space agree before and after it. *)
Lemma split_at_space (a a' r r' : str) :
  32 ∉ a → 32 ∉ a' → a ++ 32 :: r = a' ++ 32 :: r' → a = a' ∧ r = r'.
Proof.
  revert a'. induction a as [|c a IH]; intros [|c' a'] Ha Ha'; simpl.
  - by intros [= ->].
  - intros [= <- _]. set_solver.
  - intros [= -> _]. set_solver.
  - intros [= -> Heq]. destruct (IH a') as [-> ->]; [set_solver..|done|done].
Qed.

(** On author tokens the normalized key determines the author, the year and
    the form. *)
Lemma normalize_inj a y f a' y' f' :
  is_author a = true → is_author a' = true →
  normalize a y f = normalize a' y' f' → a = a' ∧ y = y' ∧ f = f'.
Proof.
  intros Ha%is_author_no_space Ha'%is_author_no_space.
  unfold normalize.
  destruct f, f'; rewrite ?et_al_form_eq, ?plain_form_eq;
    intros [-> Heq]%split_at_space; try done;
    injection Heq as Heq; by apply app_inv_tail in Heq as ->.
Qed.

Section Extraction.
Variable U : unicode.

Lemma extract_step_eq st m :
  extract_step U st m =
  if decide (normalized_of U m ∈ st.2) then st
  else (st.1 ++ [record_of U m], {[normalized_of U m]} ∪ st.2).
Proof.
  unfold extract_step, normalized_of, record_of, normalized_of, normalize, has_et_al.
  by destruct (str_in _ _).
Qed.

(** Groups 1 and 2 of a match of the pattern set are an author token and a
    year token, and the matched text is not empty. *)
Lemma raw_match_shape text m :
  m ∈ raw_matches U text →
  group 0 m ≠ [] ∧ is_author (group 1 m) = true ∧ is_year U (group 2 m) = true.
Proof.
  unfold raw_matches. rewrite list_elem_of_In, in_flat_map.
  intros (p & Hp%list_elem_of_In & Hm%list_elem_of_In).
  apply finditer_sound in Hm.
  destruct (citation_pattern_shape U p _ _ Hp Hm) as (Ht & (a & Ha & Hau) & (y & Hy & Hye)).
  unfold group. simpl. by rewrite Ha, Hy.
Qed.

Lemma snoc_split {A} (l pre post : list A) (x y : A) :
  l ++ [x] = pre ++ y :: post →
  (∃ post', post = post' ++ [x] ∧ l = pre ++ y :: post') ∨ (post = [] ∧ y = x ∧ pre = l).
Proof.
  destruct post as [|z post _] using rev_ind.
  - intros [-> ->]%app_inj_tail. by right.
  - rewrite app_comm_cons, app_assoc. intros [-> ->]%app_inj_tail. left. eauto.
Qed.

(** The loop invariant of [extract_citations], over the matches seen. *)
Lemma extract_fold_invariant (raw : list rmatch) :
  let st := fold_left (extract_step U) raw ([], ∅) in
  (∀ k, k ∈ st.2 ↔ k ∈ map c_normalized st.1) ∧
  (∀ k, k ∈ st.2 ↔ k ∈ map (normalized_of U) raw) ∧
  NoDup (map c_normalized st.1) ∧
  sublist st.1 (map (record_of U) raw) ∧
  (∀ c, c ∈ st.1 ↔
     ∃ pre m post, raw = pre ++ m :: post ∧ c = record_of U m ∧
       Forall (fun m' => normalized_of U m' ≠ normalized_of U m) pre).
Proof.
  induction raw as [|m raw IH] using rev_ind; simpl.
  { split; [set_solver|]. split; [set_solver|]. split; [constructor|].
    split; [constructor|]. intros c. split; [by intros ?%elem_of_nil|].
    intros (pre & m & post & Heq & _). by destruct pre. }
  rewrite fold_left_app. simpl. rewrite extract_step_eq.
  destruct (fold_left (extract_step U) raw ([], ∅)) as [cs seen] eqn:Hst.
  simpl in IH. destruct IH as (Hseen & Hkeys & Hnd & Hsub & Hfirst). simpl.
  destruct (decide (normalized_of U m ∈ seen)) as [Hin|Hnew]; simpl;
    rewrite ?map_app; simpl.
  - split; [done|]. split.
    { intros k. rewrite Hkeys. set_solver. }
    split; [done|]. split; [by apply sublist_inserts_r|].
    intros c. rewrite Hfirst. split.
    + intros (pre & m0 & post & -> & -> & Hpre).
      exists pre, m0, (post ++ [m]). by rewrite <- app_assoc.
    + intros (pre & m0 & post & Heq & -> & Hpre).
      apply snoc_split in Heq as [(post' & -> & ->)|(-> & -> & ->)];
        [by exists pre, m0, post'|].
      apply Hkeys, list_elem_of_fmap in Hin as (m' & Hk & Hm').
      rewrite Forall_forall in Hpre. exfalso. by apply (Hpre m' Hm').

  - split.
    { intros k. rewrite elem_of_union, elem_of_app, Hseen. set_solver. }
    split.
    { intros k. rewrite elem_of_union, elem_of_app, Hkeys. set_solver. }
    split.
    { apply NoDup_app. split; [done|]. split; [|apply NoDup_singleton].
      intros k Hk%Hseen ->%list_elem_of_singleton. done. }
    split; [by apply sublist_app|].
    intros c. rewrite elem_of_app, Hfirst, list_elem_of_singleton. split.
    + intros [(pre & m0 & post & -> & -> & Hpre)| ->].
      * exists pre, m0, (post ++ [m]). by rewrite <- app_assoc.
      * exists raw, m, []. split; [done|]. split; [done|].
        apply Forall_forall. intros m' Hm' Heq. apply Hnew, Hkeys.
        rewrite <- Heq. apply list_elem_of_fmap. eauto.
    + intros (pre & m0 & post & Heq & -> & Hpre).
      apply snoc_split in Heq as [(post' & -> & ->)|(-> & -> & ->)]; [|by right].
      left. by exists pre, m0, post'.
Qed.

(** Counting distinct values through a function that is injective on the
    list. *)
Lemma size_list_to_set_inj `{Countable A, Countable B} (f : A → B) (l : list A) :
  (∀ x y, x ∈ l → y ∈ l → f x = f y → x = y) →
  size (list_to_set (map f l) : gset B) = size (list_to_set l : gset A).
Proof.
  induction l as [|x l IH]; intros Hinj; [done|].
  simpl. specialize (IH ltac:(intros; apply Hinj; set_solver)).
  destruct (decide (x ∈ l)) as [Hx|Hx].
  - rewrite !subseteq_union_1_L; [done| |].
    + apply singleton_subseteq_l, elem_of_list_to_set, Hx.
    + apply singleton_subseteq_l, elem_of_list_to_set, list_elem_of_fmap. eauto.
  - rewrite !size_union, !size_singleton, IH; [done| |].
    + apply disjoint_singleton_l. by rewrite elem_of_list_to_set.
    + apply disjoint_singleton_l. rewrite elem_of_list_to_set.
      intros (y & Hy & Hin)%list_elem_of_fmap.
      apply Hx. rewrite (Hinj x y); [done|set_solver|set_solver|done].
Qed.

(** C6. The output of [extract_citations] is deduplicated by normalized key
    in first-seen order: it has no more records than there are raw matches,
    exactly as many as there are distinct (author, year, et-al flag) tuples
    among the matches, no key twice, it follows the order of the matches,
    and its records are exactly those made from the first match of each key,
    whose matched text is the record's text. *)
Theorem extract_citations_dedup (text : str) :
  (length (extract_citations U text) ≤ length (raw_matches U text))%nat ∧
  length (extract_citations U text)
    = size (list_to_set (map (tuple_of U) (raw_matches U text)) : gset (str * str * bool)) ∧
  NoDup (map c_normalized (extract_citations U text)) ∧
  sublist (extract_citations U text) (map (record_of U) (raw_matches U text)) ∧
  (∀ c, c ∈ extract_citations U text ↔
     ∃ pre m post,
       raw_matches U text = pre ++ m :: post ∧
       c = record_of U m ∧
       Forall (fun m' => normalized_of U m' ≠ normalized_of U m) pre).
Proof.
  rewrite extract_citations_fold.
  destruct (extract_fold_invariant (raw_matches U text))
    as (Hseen & Hkeys & Hnd & Hsub & Hfirst).
  set (st := fold_left (extract_step U) (raw_matches U text) ([], ∅)) in *.
  split.
  { apply sublist_length in Hsub. by rewrite length_map in Hsub. }
  split; [|done].
  rewrite <- (length_map c_normalized), <- (size_list_to_set (C := gset str)) by done.
  transitivity (size (list_to_set (map (normalized_of U) (raw_matches U text)) : gset str)).
  { f_equal. apply set_eq. intros k. rewrite !elem_of_list_to_set, <- Hseen. apply Hkeys. }
  change (map (normalized_of U) (raw_matches U text))
    with (map (fun m => (fun t : str * str * bool => normalize t.1.1 t.1.2 t.2) (tuple_of U m))
              (raw_matches U text)).
  rewrite <- (map_map (tuple_of U)).
  apply size_list_to_set_inj.
  intros [[a y] f] [[a' y'] f'] (m & Hm & Hin)%list_elem_of_fmap
    (m' & Hm' & Hin')%list_elem_of_fmap Heq. simpl in Heq.
  unfold tuple_of in Hm, Hm'. simplify_eq.
  destruct (raw_match_shape _ _ Hin) as (_ & Ha & _).
  destruct (raw_match_shape _ _ Hin') as (_ & Ha' & _).
  destruct (normalize_inj _ _ _ _ _ _ Ha Ha' Heq) as (Ea & Ey & Ef).
  by rewrite Ea, Ey, Ef.
Qed.

End Extraction.

(** ** Keys of extracted citations *)

Section Keys.
Variable U : unicode.

Lemma extracted_is_record text c :
  c ∈ extract_citations U text → ∃ m, m ∈ raw_matches U text ∧ c = record_of U m.
Proof.
  rewrite extract_citations_fold.
  destruct (extract_fold_invariant U (raw_matches U text)) as (_ & _ & _ & _ & Hfirst).
  intros (pre & m & post & Heq & -> & _)%Hfirst.
  exists m. split; [|done]. rewrite Heq. set_solver.
Qed.

Lemma startswith_app (p s : str) : startswith p (p ++ s) = true.
Proof. induction p as [|a p IH]; simpl; [done|]. by rewrite N.eqb_refl. Qed.

Lemma author_key_not_arxiv a r :
  is_author a = true → startswith (py "arXiv:") (a ++ r) = false.
Proof.
  intros (c & l & -> & Hc & _)%is_author_chars.
  change (py "arXiv:") with [97; 114; 88; 105; 118; 58].
  cbn [startswith app].
  destruct (N.eqb_spec 97 c) as [<-|]; [by vm_compute in Hc|done].
Qed.

Lemma normalize_not_arxiv a y f :
  is_author a = true → startswith (py "arXiv:") (normalize a y f) = false.
Proof. intros Ha. destruct f; by apply author_key_not_arxiv. Qed.

(** Entries under arXiv keys leave every other key of the map as it was. *)
Lemma flag_arxiv_lookup (ms : list rmatch) (suspicious : gmap str str) (k : str) :
  startswith (py "arXiv:") k = false →
  fold_left flag_arxiv ms suspicious !! k = suspicious !! k.
Proof.
  intros Hk. revert suspicious. induction ms as [|m ms IH]; intros suspicious; [done|].
  simpl. rewrite IH. unfold flag_arxiv. apply lookup_insert_ne.
  intros <-. by rewrite startswith_app in Hk.
Qed.

(** C10. Every record of [extract_citations] has an author token (a capital
    ASCII letter followed by small ASCII letters) and a year token, and its
    key is one of the two forms built from them; so no key starts with
    "arXiv:", and the entries that the fabrication list adds under arXiv
    keys change nothing in the report of [check_text]: no result is marked
    suspicious because of them. *)
Theorem arxiv_entries_unreachable (text : str) :
  Forall (fun c =>
            is_author (c_author c) = true ∧
            is_year U (c_year c) = true ∧
            (c_normalized c = et_al_form (c_author c) (c_year c) ∨
             c_normalized c = plain_form (c_author c) (c_year c)) ∧
            startswith (py "arXiv:") (c_normalized c) = false)
         (extract_citations U text) ∧
  ∀ (self : checker) (found : list rmatch),
    check_text U {| verified_citations := verified_citations self;
                    suspicious_citations :=
                      fold_left flag_arxiv found (suspicious_citations self) |} text
    = check_text U self text.
Proof.
  assert (Hshape : ∀ c, c ∈ extract_citations U text →
            is_author (c_author c) = true ∧ is_year U (c_year c) = true ∧
            (c_normalized c = et_al_form (c_author c) (c_year c) ∨
             c_normalized c = plain_form (c_author c) (c_year c)) ∧
            startswith (py "arXiv:") (c_normalized c) = false).
  { intros c (m & Hm & ->)%extracted_is_record.
    destruct (raw_match_shape U _ _ Hm) as (_ & Ha & Hy). simpl.
    split; [done|]. split; [done|]. split.
    - unfold normalized_of, normalize. destruct (has_et_al U m); eauto.
    - by apply normalize_not_arxiv. }
  split; [by apply Forall_forall|].
  intros self found. unfold check_text.
  set (rs := map _ (extract_citations U text)).
  set (rs' := map _ (extract_citations U text)).
  assert (rs = rs') as ->; [|done].
  apply map_ext_in. intros c Hc%list_elem_of_In.
  destruct (Hshape c Hc) as (_ & _ & _ & Hk).
  unfold verify_citation. simpl.
  rewrite (flag_arxiv_lookup _ _ _ Hk).
  assert (bool_decide (c_normalized c ∈ dom (fold_left flag_arxiv found (suspicious_citations self)))
          = bool_decide (c_normalized c ∈ dom (suspicious_citations self))) as ->; [|done].
  apply bool_decide_ext. by rewrite !elem_of_dom, (flag_arxiv_lookup _ _ _ Hk).
Qed.

End Keys.

(** ** Substrings *)

Lemma startswith_spec (p s : str) : startswith p s = true ↔ ∃ b, s = p ++ b.
Proof.
  revert s. induction p as [|a p IH]; intros s; simpl.
  - split; [by exists s|done].
  - destruct s as [|c s].
    + split; [done|]. by intros (b & ?).
    + rewrite andb_true_iff, N.eqb_eq, IH. split.
      * intros (-> & b & ->). by exists b.
      * intros (b & [= -> ->]). eauto.
Qed.

(** [str_in p s] holds exactly when [p] is a contiguous part of [s]. *)
Lemma str_in_spec (p s : str) : str_in p s = true ↔ ∃ a b, s = a ++ p ++ b.
Proof.
  induction s as [|c s IH]; simpl.
  - rewrite orb_false_r, startswith_spec. split.
    + intros (b & ->). by exists [], b.
    + intros (a & b & Heq). symmetry in Heq.
      apply app_eq_nil in Heq as [-> Heq]. eauto.
  - rewrite orb_true_iff, IH, startswith_spec. split.
    + intros [(b & ->)|(a & b & ->)]; [by exists [], b|by exists (c :: a), b].
    + intros ([|c' a] & b & Heq); simpl in Heq; [by eauto|].
      injection Heq as -> ->. eauto.
Qed.

(** ** Knowledge base *)

Section KnowledgeBase.
Variable U : unicode.

Lemma update_all_union (f : option str → gset str) (files : list (option str)) (verified : gset str) :
  update_all f files verified = verified ∪ update_all f files ∅.
Proof.
  unfold update_all. revert verified.
  induction files as [|x files IH]; intros verified; simpl; [set_solver|].
  rewrite IH, (IH (∅ ∪ f x)). set_solver.
Qed.

Lemma update_all_insert (f : option str → gset str) (before : list (option str))
    (x : option str) (after : list (option str)) (verified : gset str) :
  update_all f (before ++ x :: after) verified
  = update_all f (before ++ after) verified ∪ f x.
Proof.
  unfold update_all. rewrite !fold_left_app. simpl.
  fold (update_all f after (fold_left (fun acc filepath => acc ∪ f filepath) before verified ∪ f x)).
  fold (update_all f after (fold_left (fun acc filepath => acc ∪ f filepath) before verified)).
  rewrite update_all_union, (update_all_union _ _ (fold_left _ before verified)).
  set_solver.
Qed.

(** C5. A review file is scanned exactly when its text holds the check mark
    and, once upper-cased, the word VERIFIED: then it yields what a trusted
    file with the same text yields, and otherwise (as when it cannot be
    read) nothing.  In the verified
    set as a whole, a review file adds its citations under that condition
    and no entry at all without it. *)
Theorem review_fail_closed (content : str) :
  _extract_verified_from_review U None = ∅ ∧
  _extract_verified_from_review U (Some content)
    = (if str_in (py "✅") content && str_in (py "VERIFIED") (upper U content)
       then _extract_citations_from_file U (Some content) else ∅) ∧
  (str_in (py "✅") content && str_in (py "VERIFIED") (upper U content) = true
     ↔ (∃ a b, content = a ++ py "✅" ++ b) ∧
       (∃ a b, upper U content = a ++ py "VERIFIED" ++ b)) ∧
  ∀ corrections bib before after consensus data fabricated,
    _load_verified_citations U
      {| correction_files := corrections; bib_file := bib;
         pdf_reviews := before ++ Some content :: after;
         consensus_files := consensus; suspicious_file := data;
         fabricated_file := fabricated |}
    = _load_verified_citations U
        {| correction_files := corrections; bib_file := bib;
           pdf_reviews := before ++ after;
           consensus_files := consensus; suspicious_file := data;
           fabricated_file := fabricated |}
      ∪ (if str_in (py "✅") content && str_in (py "VERIFIED") (upper U content)
         then _extract_citations_from_file U (Some content) else ∅).
Proof.
  assert (Hreview : _extract_verified_from_review U (Some content)
    = (if str_in (py "✅") content && str_in (py "VERIFIED") (upper U content)
       then _extract_citations_from_file U (Some content) else ∅)).
  { unfold _extract_verified_from_review, _extract_citations_from_file.
    by destruct (str_in (py "✅") content), (str_in (py "VERIFIED") (upper U content)). }
  split; [done|]. split; [done|]. split.
  { by rewrite andb_true_iff, !str_in_spec. }
  intros. unfold _load_verified_citations. simpl.
  rewrite update_all_insert, Hreview.
  rewrite (update_all_union _ consensus), (update_all_union _ consensus (update_all _ (before ++ after) _)).
  set_solver.
Qed.

Lemma lookup_insert_same (m : gmap str str) (k k' v : str) :
  m !! k = Some v → <[k' := v]> m !! k = Some v.
Proof.
  intros Hk. destruct (decide (k' = k)) as [->|Hne];
    [apply lookup_insert_eq|by rewrite lookup_insert_ne].
Qed.

(** After the loop over the matches of a line, both forms of every match
    are mapped to the reason. *)
Lemma flag_both_fold (why : str) (ms : list rmatch) (suspicious : gmap str str) :
  Forall (fun m =>
            fold_left (flag_both why) ms suspicious
              !! et_al_form (group 1 m) (group 2 m) = Some why ∧
            fold_left (flag_both why) ms suspicious
              !! plain_form (group 1 m) (group 2 m) = Some why) ms.
Proof.
  induction ms as [|m ms IH] using rev_ind; [constructor|].
  rewrite fold_left_app. simpl. unfold flag_both at 1 3.
  apply Forall_app. split.
  - eapply Forall_impl; [exact IH|]. intros m' [H1 H2]. simpl in *.
    split; by do 2 apply lookup_insert_same.
  - constructor; [|constructor]. split.
    + apply lookup_insert_same, lookup_insert_eq.
    + apply lookup_insert_eq.
Qed.

(** C8. Loading an entry of the suspicious list maps both forms of every
    citation matched in its line to the entry's reason, or to "Unknown
    reason" when it has none.  With the one entry "Lee et al. (2021)",
    reason "retracted", in either bucket and nothing else, the verified set
    is empty and checking the text "Lee et al. (2021)" gives one result,
    SUSPICIOUS, whose reason is "retracted". *)
Theorem suspicious_entry_flags (suspicious : gmap str str) (it : item) (in_high : bool) :
  Forall (fun m =>
            flag_item U suspicious it !! et_al_form (group 1 m) (group 2 m)
              = Some (default (py "Unknown reason") (reason it)) ∧
            flag_item U suspicious it !! plain_form (group 1 m) (group 2 m)
              = Some (default (py "Unknown reason") (reason it)))
         (raw_matches U (default [] (line it))) ∧
  verified_citations (init U (one_suspicious_source in_high)) = ∅ ∧
  suspicious_citations (init U (one_suspicious_source in_high))
    = flag_item U ∅ lee_entry ∧
  results (check_text U (init U (one_suspicious_source in_high)) (py "Lee et al. (2021)"))
    = [{| r_citation := py "Lee et al. (2021)";
          r_verified := false;
          r_suspicious := true;
          r_suspicious_reason := Some (py "retracted");
          r_status := STATUS_SUSPICIOUS;
          r_original_text := py "Lee et al. (2021)";
          r_author := py "Lee";
          r_year := py "2021" |}].
Proof.
  split.
  { unfold flag_item. rewrite scan_into_map_fold. apply flag_both_fold. }
  split; [by destruct in_high|].
  split; [by destruct in_high|].
  destruct in_high; by vm_compute.
Qed.

End KnowledgeBase.

(** ** Texts without citations *)

Section NoCitations.
Variable U : unicode.

Lemma prev_after_cons prev c pre :
  prev_after prev (c :: pre) = prev_after (Some c) pre.
Proof.
  unfold prev_after. rewrite last_cons. by destruct (last pre).
Qed.

(** The scan finds nothing exactly when the pattern matches at no position. *)
Lemma scan_nil_iff r prev s :
  scan U r prev s 0 = [] ↔
  ∀ pre suf, s = pre ++ suf → match_at U r (prev_after prev pre) suf = None.
Proof.
  revert prev. induction s as [|c s IH]; intros prev; simpl.
  - split.
    + intros Hscan pre suf Heq. symmetry in Heq. apply app_eq_nil in Heq as [-> ->].
      change (prev_after prev []) with prev.
      by destruct (match_at U r prev []).
    + intros Hno. specialize (Hno [] [] eq_refl).
      change (prev_after prev []) with prev in Hno. by rewrite Hno.
  - split.
    + intros Hscan [|c' pre] suf Heq; simpl in Heq.
      * subst suf. change (prev_after prev []) with prev.
        by destruct (match_at U r prev (c :: s)).
      * injection Heq as <- ->. rewrite prev_after_cons.
        destruct (match_at U r prev (c :: pre ++ suf)); [done|].
        by apply (proj1 (IH (Some c))).
    + intros Hno. pose proof (Hno [] (c :: s) eq_refl) as H0.
      change (prev_after prev []) with prev in H0. rewrite H0.
      apply IH. intros pre suf ->. rewrite <- (prev_after_cons prev). by apply Hno.
Qed.

Lemma finditer_nil_iff r text :
  finditer U r text = [] ↔
  ∀ pre suf, text = pre ++ suf → match_at U r (last pre) suf = None.
Proof.
  unfold finditer. rewrite scan_nil_iff.
  assert (Hprev : ∀ pre : str, prev_after None pre = last pre).
  { intros pre. unfold prev_after. by destruct (last pre). }
  split; intros Hno pre suf Heq; [rewrite <- Hprev|rewrite Hprev]; by apply Hno.
Qed.

(** C9. When no pattern matches at any position of the text (as in the
    empty text), [extract_citations] returns the empty list and the report
    of [check_text] has no citation, all counts 0 and [all_verified] set. *)
Theorem no_match_no_citations (self : checker) (text : str) :
  (∀ p, p ∈ citation_patterns →
     ∀ pre suf, text = pre ++ suf → match_at U p (last pre) suf = None) →
  extract_citations U text = [] ∧
  check_text U self text
    = {| citations_found := 0; verified := 0; suspicious := 0; unverified := 0;
         results := []; all_verified := true |}.
Proof.
  intros Hno.
  assert (Hraw : raw_matches U text = []).
  { unfold raw_matches.
    induction citation_patterns as [|p ps IH]; [done|]. simpl.
    rewrite (proj2 (finditer_nil_iff p text)) by (apply Hno; left).
    apply IH. intros q Hq. apply Hno. by right. }
  assert (Hex : extract_citations U text = []).
  { by rewrite extract_citations_fold, Hraw. }
  split; [done|]. unfold check_text. by rewrite Hex.
Qed.

End NoCitations.

Lemma no_citations_text_unmatched (p : regex) :
  p ∈ citation_patterns →
  ∀ pre suf, no_citations_text = pre ++ suf → match_at ascii_only p (last pre) suf = None.
Proof.
  intros Hp. apply finditer_nil_iff. revert p Hp. apply Forall_forall.
  repeat constructor; by vm_compute.
Qed.

Lemma empty_text_unmatched (p : regex) :
  p ∈ citation_patterns →
  ∀ pre suf, [] = pre ++ suf → match_at ascii_only p (last pre) suf = None.
Proof.
  intros Hp. apply finditer_nil_iff. revert p Hp. apply Forall_forall.
  repeat constructor; by vm_compute.
Qed.

Lemma no_match_no_citations_witness :
  (extract_citations ascii_only no_citations_text = [] ∧
   check_text ascii_only empty_checker no_citations_text
     = {| citations_found := 0; verified := 0; suspicious := 0; unverified := 0;
          results := []; all_verified := true |}) ∧
  (extract_citations ascii_only [] = [] ∧
   check_text ascii_only empty_checker []
     = {| citations_found := 0; verified := 0; suspicious := 0; unverified := 0;
          results := []; all_verified := true |}).
Proof.
  split.
  - exact (no_match_no_citations ascii_only empty_checker no_citations_text
             no_citations_text_unmatched).
  - exact (no_match_no_citations ascii_only empty_checker [] empty_text_unmatched).
Defined.

(** ** Symbolic evaluation of the matcher *)

Section Evaluation.
Variable U : unicode.

Lemma run_start r c prev g s (o : outcome) :
  can_start U r c = false → o ∈ run U r prev g (c :: s) →
  nullable r = true ∧ o.1.1 = [] ∧ o.2 = c :: s.
Proof.
  revert prev g o.
  induction r as [k|k|k|k|n k| |i r IH|r1 IH1 r2 IH2]; intros prev g o; simpl; intros Hc.
  - rewrite Hc. by intros ?%elem_of_nil.
  - rewrite Hc. by intros ?%elem_of_nil.
  - rewrite Hc. simpl. by intros ->%list_elem_of_singleton.
  - rewrite Hc. by intros ->%list_elem_of_singleton.
  - destruct n as [|n]; simpl.
    + by intros ->%list_elem_of_singleton.
    + rewrite Hc. by intros ?%elem_of_nil.
  - destruct (xorb _ _); [|by intros ?%elem_of_nil].
    by intros ->%list_elem_of_singleton.
  - intros (o1 & -> & Hin)%list_elem_of_fmap. simpl. by eapply IH.
  - apply orb_false_iff in Hc as [Hc1 Hc2].
    rewrite list_elem_of_In, in_flat_map.
    intros (o1 & Hin1%list_elem_of_In & Hin%list_elem_of_In).
    apply list_elem_of_fmap in Hin as (o2 & -> & Hin2).
    destruct (IH1 _ _ _ Hc1 Hin1) as (Hn1 & Ht1 & Hr1).
    rewrite Hn1 in Hc2. simpl in Hc2. rewrite Hr1 in Hin2.
    destruct (IH2 _ _ _ Hc2 Hin2) as (Hn2 & Ht2 & Hr2).
    simpl. by rewrite Hn1, Ht1, Ht2.
Qed.

(** A pattern that cannot match the empty text fails on a character it
    cannot begin with. *)
Lemma run_rejects r c prev g s :
  nullable r = false → can_start U r c = false → run U r prev g (c :: s) = [].
Proof.
  intros Hn Hc. destruct (run U r prev g (c :: s)) as [|o l] eqn:Hrun; [done|].
  destruct (run_start r c prev g s o Hc) as (Hn' & _); [rewrite Hrun; left|congruence].
Qed.

Lemma run_end r prev g (o : outcome) :
  o ∈ run U r prev g [] → nullable r = true ∧ o.1.1 = [] ∧ o.2 = [].
Proof.
  revert prev g o.
  induction r as [k|k|k|k|n k| |i r IH|r1 IH1 r2 IH2]; intros prev g o; simpl.
  - by intros ?%elem_of_nil.
  - by intros ?%elem_of_nil.
  - by intros ->%list_elem_of_singleton.
  - by intros ->%list_elem_of_singleton.
  - destruct n as [|n]; simpl.
    + by intros ->%list_elem_of_singleton.
    + by intros ?%elem_of_nil.
  - destruct (xorb _ _); [|by intros ?%elem_of_nil].
    by intros ->%list_elem_of_singleton.
  - intros (o1 & -> & Hin)%list_elem_of_fmap. simpl. by eapply IH.
  - rewrite list_elem_of_In, in_flat_map.
    intros (o1 & Hin1%list_elem_of_In & Hin%list_elem_of_In).
    apply list_elem_of_fmap in Hin as (o2 & -> & Hin2).
    destruct (IH1 _ _ _ Hin1) as (Hn1 & Ht1 & Hr1).
    rewrite Hr1 in Hin2.
    destruct (IH2 _ _ _ Hin2) as (Hn2 & Ht2 & Hr2).
    simpl. by rewrite Hn1, Ht1, Ht2.
Qed.

Lemma run_nil r prev g : nullable r = false → run U r prev g [] = [].
Proof.
  intros Hn. destruct (run U r prev g []) as [|o l] eqn:Hrun; [done|].
  destruct (run_end r prev g o) as (Hn' & _); [rewrite Hrun; left|congruence].
Qed.

Lemma match_at_rejects r c prev s :
  nullable r = false → can_start U r c = false → match_at U r prev (c :: s) = None.
Proof. intros Hn Hc. unfold match_at. by rewrite run_rejects. Qed.

Lemma match_at_nil r prev : nullable r = false → match_at U r prev [] = None.
Proof. intros Hn. unfold match_at. by rewrite run_nil. Qed.

(** *** Scanning over positions where nothing can begin *)

Lemma scan_dead r prev (t s : str) :
  nullable r = false → Forall (fun c => can_start U r c = false) t →
  scan U r prev (t ++ s) 0 = scan U r (prev_after prev t) s 0.
Proof.
  intros Hn Ht. revert prev. induction Ht as [|c t Hc Ht IH]; intros prev; [done|].
  simpl. rewrite match_at_rejects, IH by done. by rewrite prev_after_cons.
Qed.

Lemma scan_end r prev : nullable r = false → scan U r prev [] 0 = [].
Proof. intros Hn. simpl. by rewrite match_at_nil. Qed.

Lemma scan_skip r prev (t s : str) :
  scan U r prev (t ++ s) (length t) = scan U r (prev_after prev t) s 0.
Proof.
  revert prev. induction t as [|c t IH]; intros prev; [done|].
  simpl. by rewrite IH, prev_after_cons.
Qed.

(** A pattern that matches the whole text at its start is the only match. *)
Lemma finditer_whole r c (s : str) m :
  nullable r = false → match_at U r None (c :: s) = Some m → m_text m = c :: s →
  finditer U r (c :: s) = [m].
Proof.
  intros Hn Hm Ht. unfold finditer. simpl. rewrite Hm, Ht. simpl.
  rewrite Nat.sub_0_r, <- (app_nil_r s) at 1.
  by rewrite scan_skip, scan_end.
Qed.

(** *** Greedy quantifiers before a pattern that rejects their class *)

Lemma star_runs_cut {X} (f : str * str → list X) k s :
  (∀ t c s', cls_ok U k c = true → f (t, c :: s') = []) →
  flat_map f (star_runs U k s) = f (munch U k s).
Proof.
  revert f. induction s as [|c s IH]; intros f Hf; simpl.
  - by rewrite app_nil_r.
  - destruct (cls_ok U k c) eqn:Hc; simpl; [|by rewrite app_nil_r].
    rewrite flat_map_app. simpl. rewrite (Hf [] c s Hc), !app_nil_r.
    rewrite flat_map_concat_map, map_map, <- flat_map_concat_map.
    apply (IH (fun o => f (push c o))). intros t c' s' Hc'. by apply Hf.
Qed.

Lemma munch_app_cons k (l : str) c s :
  Forall (fun x => cls_ok U k x = true) l → cls_ok U k c = false →
  munch U k (l ++ c :: s) = (l, c :: s).
Proof.
  intros Hl Hc. induction Hl as [|x l Hx Hl IH]; simpl; [by rewrite Hc|].
  by rewrite Hx, IH.
Qed.

Lemma map_prepend_nil (l : list outcome) : map (prepend []) l = l.
Proof. induction l as [|[[t g] s] l IH]; simpl; [done|]. by rewrite IH. Qed.

Lemma seq_One k r prev g c s :
  run U (Seq (One k) r) prev g (c :: s)
  = if cls_ok U k c then map (prepend [c]) (run U r (Some c) g s) else [].
Proof. simpl. destruct (cls_ok U k c); simpl; [|done]. by rewrite app_nil_r. Qed.

Lemma seq_WordB r prev g s :
  run U (Seq WordB r) prev g s
  = if xorb (word_opt U prev) (word_opt U (head s)) then run U r prev g s else [].
Proof.
  simpl. destruct (xorb _ _); simpl; [|done].
  rewrite app_nil_r. apply map_prepend_nil.
Qed.

Lemma seq_Star k r prev g s :
  nullable r = false → (∀ c, cls_ok U k c = true → can_start U r c = false) →
  run U (Seq (Star k) r) prev g s
  = map (prepend (munch U k s).1)
        (run U r (prev_after prev (munch U k s).1) g (munch U k s).2).
Proof.
  intros Hn Hk. simpl.
  rewrite flat_map_concat_map, map_map, <- flat_map_concat_map. simpl.
  rewrite (star_runs_cut (fun o => map _ (run U r (prev_after prev o.1) g o.2))); [done|].
  intros t c s' Hc. simpl. by rewrite run_rejects by auto.
Qed.

Lemma seq_Plus k r prev g c s :
  nullable r = false → (∀ x, cls_ok U k x = true → can_start U r x = false) →
  run U (Seq (Plus k) r) prev g (c :: s)
  = if cls_ok U k c
    then map (prepend (c :: (munch U k s).1))
             (run U r (prev_after (Some c) (munch U k s).1) g (munch U k s).2)
    else [].
Proof.
  intros Hn Hk. simpl. destruct (cls_ok U k c); simpl; [|done].
  rewrite map_map, flat_map_concat_map, map_map, <- flat_map_concat_map. simpl.
  rewrite (star_runs_cut
             (fun o => map _ (run U r (prev_after prev (c :: o.1)) g o.2))).
  - by rewrite prev_after_cons.
  - intros t x s' Hx. simpl. by rewrite run_rejects by auto.
Qed.

Lemma seq_Opt k r prev g c s :
  nullable r = false → (∀ x, cls_ok U k x = true → can_start U r x = false) →
  run U (Seq (Opt k) r) prev g (c :: s)
  = if cls_ok U k c then map (prepend [c]) (run U r (Some c) g s)
    else run U r prev g (c :: s).
Proof.
  intros Hn Hk. simpl. destruct (cls_ok U k c) eqn:Hc; simpl.
  - by rewrite run_rejects, !app_nil_r by auto.
  - rewrite app_nil_r. apply map_prepend_nil.
Qed.

End Evaluation.

(** ** Canonical keys read back *)

Ltac bool_lia :=
  unfold lower_cp, is_space, is_digit, is_word in *; unfold is_az, is_AZ in *;
  unfold between in *;
  repeat match goal with
         | H : context [(?a <=? ?b)%N] |- _ => destruct (N.leb_spec a b); simpl in H
         | H : context [(?a <? ?b)%N] |- _ => destruct (N.ltb_spec a b); simpl in H
         | H : context [(?a =? ?b)%N] |- _ => destruct (N.eqb_spec a b); simpl in H
         | |- context [(?a <=? ?b)%N] => destruct (N.leb_spec a b); simpl
         | |- context [(?a <? ?b)%N] => destruct (N.ltb_spec a b); simpl
         | |- context [(?a =? ?b)%N] => destruct (N.eqb_spec a b); simpl
         end;
  try done; try lia.

Lemma az_not_AZ c : is_az c = true → is_AZ c = false.
Proof. intros H. bool_lia. Qed.

Section Classes.
Variable U : unicode.

Lemma az_not_space c : is_az c = true → is_space U c = false.
Proof. intros H. bool_lia. Qed.

Lemma digit_not_AZ c : is_digit U c = true → is_AZ c = false.
Proof. intros H. bool_lia. Qed.

Lemma AZ_word c : is_AZ c = true → is_word U c = true.
Proof. intros H. bool_lia. Qed.

Lemma az_lower c : is_az c = true → lower_cp U c = [c].
Proof. intros H. bool_lia. Qed.

Lemma AZ_lower c : is_AZ c = true → lower_cp U c = [c + 32].
Proof. intros H. bool_lia. Qed.

(** A character of a class is not a literal outside the class. *)
Lemma cls_ne_lit k a c :
  cls_ok U k a = false → cls_ok U k c = true → (a =? c) = false.
Proof. intros Ha Hc. destruct (N.eqb_spec a c) as [->|]; [congruence|done]. Qed.

End Classes.

Section Groups.
Variable U : unicode.

(** The author group before a pattern that cannot begin with a small
    letter takes the whole run of small letters. *)
Lemma seq_author K prev g c b s :
  nullable K = false → (∀ x, is_az x = true → can_start U K x = false) →
  is_AZ c = true → is_az b = true →
  run U (Seq author_group K) prev g (c :: b :: s)
  = map (prepend (c :: b :: (munch U LowerAZ s).1))
        (run U K (prev_after (Some b) (munch U LowerAZ s).1)
             ((1%nat, c :: b :: (munch U LowerAZ s).1) :: g)
             (munch U LowerAZ s).2).
Proof.
  intros Hn HK Hc Hb. unfold author_group.
  cbn [run plus_runs cls_ok flat_map map app]. rewrite Hc.
  cbn [run plus_runs cls_ok flat_map map app fst snd prev_after last]. rewrite Hb.
  rewrite app_nil_r, !map_map.
  rewrite flat_map_concat_map, map_map, <- flat_map_concat_map.
  rewrite star_runs_cut.
  - cbn [fst snd push app]. by rewrite !prev_after_cons.
  - intros t x s' Hx. cbn [fst snd push]. by rewrite run_rejects by auto.
Qed.

(** The year group and the closing parenthesis at the end of a text. *)
Lemma run_year_close prev g y :
  is_year U y = true →
  run U (Seq year_group (lit ")")) prev g (y ++ [41]) = [(y ++ [41], (2%nat, y) :: g, [])].
Proof.
  intros Hy.
  assert (Hclose : ∀ x, is_az x = true → (41 =? x) = false).
  { intros x Hx. by apply (cls_ne_lit U LowerAZ). }
  destruct y as [|d1 [|d2 [|d3 [|d4 [|x [|z y]]]]]]; try done; simpl in Hy;
    repeat (apply andb_true_iff in Hy as [Hy ?]).
  - unfold year_group, lit.
    cbn [run rep_runs cls_ok flat_map map app push fst snd chr N_of_ascii N_of_digits].
    rewrite Hy, H, H0, H1.
    cbn [run rep_runs cls_ok flat_map map app push fst snd].
    change (is_az 41) with false.
    cbn [run rep_runs cls_ok flat_map map app push fst snd].
    done.
  - unfold year_group, lit.
    cbn [run rep_runs cls_ok flat_map map app push fst snd].
    rewrite Hy, H0, H1, H2.
    cbn [run rep_runs cls_ok flat_map map app push fst snd].
    rewrite H.
    cbn [run rep_runs cls_ok flat_map map app push fst snd].
    change (chr ")") with 41. rewrite (Hclose x H). 
    change (41 =? 41) with true.
    cbn [run rep_runs cls_ok flat_map map app push fst snd].
    done.
Qed.

End Groups.

Ltac eval_tests U :=
  repeat match goal with
         | |- context [cls_ok U ?k ?c] =>
             let v := eval vm_compute in (cls_ok U k c) in
             match v with true => idtac | false => idtac end;
             change (cls_ok U k c) with v
         end.

Ltac side U :=
  first
    [ reflexivity
    | let x := fresh "x" in
      let Hx := fresh "Hx" in
      intros x Hx; unfold lit in *;
      cbn [can_start nullable cls_ok andb orb] in *;
      first
        [ apply N.eqb_eq in Hx; subst x; by vm_compute
        | repeat (match goal with
                  | |- context [(?a =? x)] =>
                      destruct (N.eqb_spec a x) as [<-|_]; [by vm_compute in Hx|]
                  end);
          rewrite ?(az_not_space U x Hx); by cbn ] ].

Ltac ev U :=
  repeat first
    [ rewrite seq_One
    | rewrite seq_Plus by side U
    | rewrite seq_Star by side U
    | rewrite seq_Opt by side U
    | progress eval_tests U
    | progress cbn [munch push fst snd map prepend app] ].

Ltac start_author U Hc :=
  cbn [app]; unfold lit; rewrite seq_WordB; cbn [head word_opt];
  rewrite (AZ_word U _ Hc); cbn [xorb];
  rewrite seq_author by (done || side U);
  rewrite munch_app_cons by done.

Section CanonicalKeys.
Variable U : unicode.

Lemma author_split a :
  is_author a = true →
  ∃ c b l, a = c :: b :: l ∧ is_AZ c = true ∧ is_az b = true ∧
           Forall (fun x => is_az x = true) l.
Proof.
  intros (c & [|b l] & -> & Hc & Hne & Hl)%is_author_chars; [done|].
  apply Forall_cons in Hl as [Hb Hl]. by exists c, b, l.
Qed.

Lemma run_et_al_on_et_al a y :
  is_author a = true → is_year U y = true →
  run U pattern_et_al None [] (et_al_form a y)
  = [(et_al_form a y, [(2%nat, y); (1%nat, a)], [])].
Proof.
  intros (c & b & l & -> & Hc & Hb & Hl)%author_split Hy.
  rewrite et_al_form_eq. cbn [app].
  unfold pattern_et_al. start_author U Hc. ev U.
  change (One (Lit (chr ")"))) with (lit ")").
  rewrite run_year_close by done. reflexivity.
Qed.

Lemma run_author_on_plain a y :
  is_author a = true → is_year U y = true →
  run U pattern_author None [] (plain_form a y)
  = [(plain_form a y, [(2%nat, y); (1%nat, a)], [])].
Proof.
  intros (c & b & l & -> & Hc & Hb & Hl)%author_split Hy.
  rewrite plain_form_eq. cbn [app].
  unfold pattern_author. start_author U Hc. ev U.
  change (One (Lit (chr ")"))) with (lit ")").
  rewrite run_year_close by done. reflexivity.
Qed.

Lemma run_two_authors_on_et_al a y :
  is_author a = true → run U pattern_two_authors None [] (et_al_form a y) = [].
Proof.
  intros (c & b & l & -> & Hc & Hb & Hl)%author_split.
  rewrite et_al_form_eq. unfold pattern_two_authors. start_author U Hc. by ev U.
Qed.

Lemma run_author_on_et_al a y :
  is_author a = true → run U pattern_author None [] (et_al_form a y) = [].
Proof.
  intros (c & b & l & -> & Hc & Hb & Hl)%author_split.
  rewrite et_al_form_eq. unfold pattern_author. start_author U Hc. by ev U.
Qed.

Lemma run_et_al_on_plain a y :
  is_author a = true → run U pattern_et_al None [] (plain_form a y) = [].
Proof.
  intros (c & b & l & -> & Hc & Hb & Hl)%author_split.
  rewrite plain_form_eq. unfold pattern_et_al. start_author U Hc. by ev U.
Qed.

Lemma run_two_authors_on_plain a y :
  is_author a = true → run U pattern_two_authors None [] (plain_form a y) = [].
Proof.
  intros (c & b & l & -> & Hc & Hb & Hl)%author_split.
  rewrite plain_form_eq. unfold pattern_two_authors. start_author U Hc. by ev U.
Qed.

Lemma year_head y :
  is_year U y = true → ∃ d s, y = d :: s ∧ is_digit U d = true.
Proof.
  intros Hy.
  destruct y as [|d1 [|d2 [|d3 [|d4 [|x [|z y]]]]]]; cbn [is_year] in Hy;
    try discriminate Hy; repeat (apply andb_true_iff in Hy as [Hy ?]);
    by eexists _, _.
Qed.

(** The parenthetical patterns fail at the parenthesis before the year. *)
Lemma run_paren_et_al_at_year prev y :
  is_year U y = true → run U pattern_paren_et_al prev [] (40 :: y ++ [41]) = [].
Proof.
  intros (d & s & -> & Hd)%year_head. unfold pattern_paren_et_al, lit.
  ev U. rewrite run_rejects; [done|done|].
  cbn [can_start author_group nullable cls_ok andb orb].
  by rewrite (digit_not_AZ U d Hd).
Qed.

Lemma run_paren_at_year prev y :
  is_year U y = true → run U pattern_paren prev [] (40 :: y ++ [41]) = [].
Proof.
  intros (d & s & -> & Hd)%year_head. unfold pattern_paren, lit.
  ev U. rewrite run_rejects; [done|done|].
  cbn [can_start author_group nullable cls_ok andb orb].
  by rewrite (digit_not_AZ U d Hd).
Qed.

End CanonicalKeys.

Section FixedPoint.
Variable U : unicode.

(** A text with one position where the pattern could begin, at which it
    fails, holds no match. *)
Lemma finditer_one_live r (t : str) c (s : str) :
  nullable r = false →
  Forall (fun x => can_start U r x = false) t →
  match_at U r (last t) (c :: s) = None →
  Forall (fun x => can_start U r x = false) s →
  finditer U r (t ++ c :: s) = [].
Proof.
  intros Hn Ht Hm Hs. unfold finditer. rewrite scan_dead by done.
  assert (prev_after None t = last t) as -> by (unfold prev_after; by destruct (last t)).
  simpl. rewrite Hm, <- (app_nil_r s). by rewrite scan_dead, scan_end.
Qed.

Lemma match_at_nil_run r prev s : run U r prev [] s = [] → match_at U r prev s = None.
Proof. unfold match_at. by intros ->. Qed.

Lemma can_start_et_al x : can_start U pattern_et_al x = is_AZ x.
Proof.
  unfold pattern_et_al, author_group, lit.
  cbn [can_start nullable andb orb cls_ok]. by rewrite ?orb_false_r.
Qed.

Lemma can_start_two_authors x : can_start U pattern_two_authors x = is_AZ x.
Proof.
  unfold pattern_two_authors, author_group, lit.
  cbn [can_start nullable andb orb cls_ok]. by rewrite ?orb_false_r.
Qed.

Lemma can_start_author x : can_start U pattern_author x = is_AZ x.
Proof.
  unfold pattern_author, author_group, lit.
  cbn [can_start nullable andb orb cls_ok]. by rewrite ?orb_false_r.
Qed.

Lemma can_start_paren_et_al x : can_start U pattern_paren_et_al x = (40 =? x).
Proof.
  unfold pattern_paren_et_al, lit.
  cbn [can_start nullable andb orb cls_ok]. by rewrite ?orb_false_r.
Qed.

Lemma can_start_paren x : can_start U pattern_paren x = (40 =? x).
Proof.
  unfold pattern_paren, lit.
  cbn [can_start nullable andb orb cls_ok]. by rewrite ?orb_false_r.
Qed.

(** Characters of a year token: not capitals, not parentheses, not spaces. *)
Lemma year_chars y :
  is_year U y = true →
  Forall (fun x => is_AZ x = false ∧ (40 =? x) = false ∧ x ≠ 32 ∧
                   (is_digit U x = true ∨ is_az x = true)) y.
Proof.
  assert (Hd : ∀ x, is_digit U x = true →
            is_AZ x = false ∧ (40 =? x) = false ∧ x ≠ 32 ∧
            (is_digit U x = true ∨ is_az x = true)).
  { intros x Hx. split; [by apply (digit_not_AZ U)|]. split; [|split; [|by left]].
    - by apply (cls_ne_lit U Digit).
    - intros ->. by vm_compute in Hx. }
  assert (Hl : ∀ x, is_az x = true →
            is_AZ x = false ∧ (40 =? x) = false ∧ x ≠ 32 ∧
            (is_digit U x = true ∨ is_az x = true)).
  { intros x Hx. split; [by apply az_not_AZ|]. split; [|split; [|by right]].
    - by apply (cls_ne_lit U LowerAZ).
    - intros ->. by vm_compute in Hx. }
  intros Hy.
  destruct y as [|d1 [|d2 [|d3 [|d4 [|x [|z y]]]]]]; cbn [is_year] in Hy;
    try discriminate Hy; repeat (apply andb_true_iff in Hy as [Hy ?]);
    repeat (apply Forall_cons; split; [by auto|]); by apply Forall_nil.
Qed.

Lemma author_chars a :
  is_author a = true →
  ∃ c l, a = c :: l ∧ is_AZ c = true ∧
         Forall (fun x => is_AZ x = false) l ∧
         Forall (fun x => (40 =? x) = false) (c :: l).
Proof.
  intros (c & l & -> & Hc & _ & Hl)%is_author_chars.
  exists c, l. split; [done|]. split; [done|]. split.
  - eapply Forall_impl; [exact Hl|]. intros x Hx. by apply az_not_AZ.
  - constructor; [by apply (cls_ne_lit U UpperAZ)|].
    eapply Forall_impl; [exact Hl|]. intros x Hx. by apply (cls_ne_lit U LowerAZ).
Qed.

Ltac dead_tail :=
  repeat first
    [ apply Forall_app; split
    | apply Forall_cons; split; [by vm_compute|]
    | apply Forall_nil; done
    | eassumption ].

(** What the five patterns find in the two canonical forms. *)
Lemma raw_matches_et_al_form a y :
  is_author a = true → is_year U y = true →
  raw_matches U (et_al_form a y)
  = [{| m_text := et_al_form a y; m_caps := [(2%nat, y); (1%nat, a)] |}].
Proof.
  intros Ha Hy.
  pose proof (run_et_al_on_et_al U a y Ha Hy) as H1.
  pose proof (run_two_authors_on_et_al U a y Ha) as H2.
  pose proof (run_author_on_et_al U a y Ha) as H3.
  pose proof (run_paren_et_al_at_year U) as H4.
  pose proof (run_paren_at_year U) as H5.
  pose proof (year_chars y Hy) as Hyc.
  destruct (author_chars a Ha) as (c & l & -> & Hc & HlAZ & Hl40).
  assert (HyAZ : Forall (fun x => is_AZ x = false) y).
  { eapply Forall_impl; [exact Hyc|]. naive_solver. }
  assert (Hy40 : Forall (fun x => (40 =? x) = false) y).
  { eapply Forall_impl; [exact Hyc|]. naive_solver. }
  assert (Hword : ∀ r, (∀ x, can_start U r x = is_AZ x) → nullable r = false →
            run U r None [] (et_al_form (c :: l) y) = [] →
            finditer U r (et_al_form (c :: l) y) = []).
  { intros r Hr Hn Hrun. rewrite et_al_form_eq in *. cbn [app] in *.
    apply (finditer_one_live r []); [done|constructor|by apply match_at_nil_run|].
    eapply Forall_impl; [|intros x Hx; rewrite Hr; exact Hx]. dead_tail. }
  assert (Hparen : ∀ r, (∀ x, can_start U r x = (40 =? x)) → nullable r = false →
            (∀ prev, run U r prev [] (40 :: y ++ [41]) = []) →
            finditer U r (et_al_form (c :: l) y) = []).
  { intros r Hr Hn Hrun. rewrite et_al_form_eq.
    change ((c :: l) ++ 32 :: 101 :: 116 :: 32 :: 97 :: 108 :: 46 :: 32 :: 40 :: y ++ [41])
      with ((c :: l) ++ [32; 101; 116; 32; 97; 108; 46; 32] ++ 40 :: y ++ [41]).
    rewrite app_assoc.
    apply finditer_one_live; [done| |by apply match_at_nil_run|].
    - eapply Forall_impl; [|intros x Hx; rewrite Hr; exact Hx]. dead_tail.
    - eapply Forall_impl; [|intros x Hx; rewrite Hr; exact Hx]. dead_tail. }
  unfold raw_matches, citation_patterns. cbn [flat_map].
  rewrite (Hword pattern_two_authors), (Hword pattern_author),
    (Hparen pattern_paren_et_al), (Hparen pattern_paren);
    auto using can_start_two_authors, can_start_author, can_start_paren_et_al,
      can_start_paren.
  rewrite app_nil_r.
  rewrite et_al_form_eq in *. cbn [app] in *.
  apply finditer_whole; [done| |done].
  unfold match_at. by rewrite H1.
Qed.

Lemma raw_matches_plain_form a y :
  is_author a = true → is_year U y = true →
  raw_matches U (plain_form a y)
  = [{| m_text := plain_form a y; m_caps := [(2%nat, y); (1%nat, a)] |}].
Proof.
  intros Ha Hy.
  pose proof (run_et_al_on_plain U a y Ha) as H1.
  pose proof (run_two_authors_on_plain U a y Ha) as H2.
  pose proof (run_author_on_plain U a y Ha Hy) as H3.
  pose proof (year_chars y Hy) as Hyc.
  destruct (author_chars a Ha) as (c & l & -> & Hc & HlAZ & Hl40).
  assert (HyAZ : Forall (fun x => is_AZ x = false) y).
  { eapply Forall_impl; [exact Hyc|]. naive_solver. }
  assert (Hy40 : Forall (fun x => (40 =? x) = false) y).
  { eapply Forall_impl; [exact Hyc|]. naive_solver. }
  assert (Hword : ∀ r, (∀ x, can_start U r x = is_AZ x) → nullable r = false →
            run U r None [] (plain_form (c :: l) y) = [] →
            finditer U r (plain_form (c :: l) y) = []).
  { intros r Hr Hn Hrun. rewrite plain_form_eq in *. cbn [app] in *.
    apply (finditer_one_live r []); [done|constructor|by apply match_at_nil_run|].
    eapply Forall_impl; [|intros x Hx; rewrite Hr; exact Hx]. dead_tail. }
  assert (Hparen : ∀ r, (∀ x, can_start U r x = (40 =? x)) → nullable r = false →
            (∀ prev, run U r prev [] (40 :: y ++ [41]) = []) →
            finditer U r (plain_form (c :: l) y) = []).
  { intros r Hr Hn Hrun. rewrite plain_form_eq.
    change ((c :: l) ++ 32 :: 40 :: y ++ [41])
      with ((c :: l) ++ [32] ++ 40 :: y ++ [41]).
    rewrite app_assoc.
    apply finditer_one_live; [done| |by apply match_at_nil_run|].
    - eapply Forall_impl; [|intros x Hx; rewrite Hr; exact Hx]. dead_tail.
    - eapply Forall_impl; [|intros x Hx; rewrite Hr; exact Hx]. dead_tail. }
  unfold raw_matches, citation_patterns. cbn [flat_map].
  rewrite (Hword pattern_et_al), (Hword pattern_two_authors),
    (Hparen pattern_paren_et_al), (Hparen pattern_paren);
    auto using can_start_et_al, can_start_two_authors, can_start_paren_et_al,
      can_start_paren, run_paren_et_al_at_year, run_paren_at_year.
  cbn [app]. rewrite app_nil_r.
  rewrite plain_form_eq in *. cbn [app] in *.
  apply finditer_whole; [done| |done].
  unfold match_at. by rewrite H3.
Qed.

End FixedPoint.

Section Idempotence.
Variable U : unicode.

Lemma lower_app (s t : str) : lower U (s ++ t) = lower U s ++ lower U t.
Proof. unfold lower. apply flat_map_app. Qed.

Lemma lower_fixed (s : str) :
  Forall (fun x => lower_cp U x = [x]) s → lower U s = s.
Proof.
  unfold lower. induction 1 as [|x s Hx Hs IH]; simpl; [done|]. by rewrite Hx, IH.
Qed.

(** The text ["et al"] does not occur around the only space of a text whose
    space is followed by a parenthesis. *)
Lemma no_et_al_around_paren (w z : str) :
  32 ∉ w → 32 ∉ z → str_in (py "et al") (w ++ 32 :: 40 :: z) = false.
Proof.
  intros Hw Hz. apply not_true_is_false. rewrite str_in_spec.
  change (py "et al") with [101; 116; 32; 97; 108].
  intros (p & q & Heq).
  destruct (decide (32 ∈ p)) as [Hp|Hp].
  - apply list_elem_of_split_l in Hp as (p1 & p2 & -> & Hp1).
    rewrite <- app_assoc in Heq. simpl in Heq.
    apply split_at_space in Heq as [_ Heq]; [|done|done].
    assert (Hin : 32 ∈ 40 :: z) by (rewrite Heq; set_solver).
    set_solver.
  - change (p ++ [101; 116; 32; 97; 108] ++ q)
      with (p ++ [101; 116] ++ 32 :: 97 :: 108 :: q) in Heq.
    rewrite app_assoc in Heq.
    apply split_at_space in Heq as [_ Heq]; [done|done|].
    rewrite elem_of_app. intros [?|Hin]; [done|]. set_solver.
Qed.

Lemma has_et_al_et_al_form a y :
  str_in (py "et al") (lower U (et_al_form a y)) = true.
Proof.
  rewrite et_al_form_eq.
  change (a ++ 32 :: 101 :: 116 :: 32 :: 97 :: 108 :: 46 :: 32 :: 40 :: y ++ [41])
    with (a ++ [32] ++ [101; 116; 32; 97; 108] ++ 46 :: 32 :: 40 :: y ++ [41]).
  rewrite !lower_app. apply str_in_spec.
  exists (lower U a ++ lower U [32]), (lower U (46 :: 32 :: 40 :: y ++ [41])).
  by rewrite <- !app_assoc.
Qed.

Lemma has_et_al_plain_form a y :
  is_author a = true → is_year U y = true →
  (∀ c, is_digit U c = true → lower_cp U c = [c]) →
  str_in (py "et al") (lower U (plain_form a y)) = false.
Proof.
  intros (c & l & -> & Hc & _ & Hl)%is_author_chars Hy Hcase.
  rewrite plain_form_eq.
  change ((c :: l) ++ 32 :: 40 :: y ++ [41]) with ([c] ++ l ++ [32; 40] ++ y ++ [41]).
  rewrite !lower_app.
  assert (lower U [c] = [c + 32]) as ->.
  { unfold lower. simpl. by rewrite (AZ_lower U c Hc). }
  assert (lower U l = l) as ->.
  { apply lower_fixed. eapply Forall_impl; [exact Hl|]. apply az_lower. }
  assert (lower U y = y) as ->.
  { apply lower_fixed. eapply Forall_impl; [exact (year_chars U y Hy)|].
    intros x (_ & _ & _ & [Hx|Hx]); [by apply Hcase|by apply az_lower]. }
  change (lower U [32; 40]) with [32; 40]. change (lower U [41]) with [41].
  change ([c + 32] ++ l ++ [32; 40] ++ y ++ [41])
    with (((c + 32) :: l) ++ 32 :: 40 :: (y ++ [41])).
  apply no_et_al_around_paren.
  - rewrite elem_of_cons. intros [Heq|Hin].
    + unfold is_AZ, between in Hc. apply andb_true_iff in Hc as [Hc _].
      apply N.leb_le in Hc. lia.
    + rewrite Forall_forall in Hl. by specialize (Hl 32 Hin).
  - rewrite elem_of_app, list_elem_of_singleton. intros [Hin|?]; [|done].
    pose proof (year_chars U y Hy) as Hyc. rewrite Forall_forall in Hyc.
    by destruct (Hyc 32 Hin) as (_ & _ & ? & _).
Qed.

Lemma record_of_caps (k a y : str) :
  record_of U {| m_text := k; m_caps := [(2%nat, y); (1%nat, a)] |}
  = {| c_text := k;
       c_normalized := normalize a y (str_in (py "et al") (lower U k));
       c_author := a;
       c_year := y |}.
Proof. reflexivity. Qed.

(** C7. The key of every extracted record is [normalize] applied to the
    record's author, its year and the et-al flag of its text, a function of
    these three alone; and a key of canonical shape is a fixed point: the
    checker extracts from it one record, with the same author and year, whose
    key is the text itself.  (That lower-casing leaves decimal digits alone,
    as it does in Unicode, is asked of the table.) *)
Theorem normalize_idempotent (a y : str) (flag : bool) :
  is_author a = true → is_year U y = true →
  (∀ c, is_digit U c = true → lower_cp U c = [c]) →
  (∀ text,
     Forall (fun c => c_normalized c
                      = normalize (c_author c) (c_year c)
                          (str_in (py "et al") (lower U (c_text c))))
            (extract_citations U text)) ∧
  extract_citations U (normalize a y flag)
    = [{| c_text := normalize a y flag;
          c_normalized := normalize a y flag;
          c_author := a;
          c_year := y |}].
Proof.
  intros Ha Hy Hcase. split.
  { intros text. apply Forall_forall. intros c (m & _ & ->)%extracted_is_record. done. }
  rewrite extract_citations_fold.
  destruct flag; unfold normalize.
  - rewrite raw_matches_et_al_form by done. cbn [fold_left].
    rewrite extract_step_eq. cbn [fst snd].
    rewrite decide_False by set_solver. cbn [fst app].
    by rewrite record_of_caps, has_et_al_et_al_form.
  - rewrite raw_matches_plain_form by done. cbn [fold_left].
    rewrite extract_step_eq. cbn [fst snd].
    rewrite decide_False by set_solver. cbn [fst app].
    by rewrite record_of_caps, has_et_al_plain_form.
Qed.

End Idempotence.

Lemma ascii_digits_uncased (c : N) :
  is_digit ascii_only c = true → lower_cp ascii_only c = [c].
Proof. intros H. unfold lower_cp. simpl. bool_lia. Qed.

Lemma normalize_idempotent_witness :
  extract_citations ascii_only (py "Smith et al. (2024)")
    = [{| c_text := py "Smith et al. (2024)";
          c_normalized := py "Smith et al. (2024)";
          c_author := py "Smith";
          c_year := py "2024" |}] ∧
  extract_citations ascii_only (py "Smith (2024a)")
    = [{| c_text := py "Smith (2024a)";
          c_normalized := py "Smith (2024a)";
          c_author := py "Smith";
          c_year := py "2024a" |}].
Proof.
  split.
  - exact (proj2 (normalize_idempotent ascii_only (py "Smith") (py "2024") true
                    eq_refl eq_refl ascii_digits_uncased)).
  - exact (proj2 (normalize_idempotent ascii_only (py "Smith") (py "2024a") false
                    eq_refl eq_refl ascii_digits_uncased)).
Defined.

(** * Further properties *)

(** ** The report as a whole *)

Lemma count_zero (f : result -> bool) (rs : list result) :
  count f rs = 0%nat ↔ Forall (fun r => f r = false) rs.
Proof.
  induction rs as [|r rs IH]; [by split; [constructor|]|].
  rewrite count_cons, Forall_cons, <- IH.
  destruct (f r); simpl; split; try lia; intros [? ?]; try done; lia.
Qed.

Lemma get_status_verified (v s : bool) :
  _get_status v s = STATUS_VERIFIED ↔ v = true ∧ s = false.
Proof.
  destruct statuses_distinct as (D1 & D2 & D3 & _).
  destruct v, s; unfold _get_status; simpl; split; try done;
    try (by intros [? ?]); intros H; exfalso; congruence.
Qed.

Lemma all_verified_keys (U : unicode) (self : checker) (text : str) :
  all_verified (check_text U self text) = true
  ↔ Forall (fun c => c_normalized c ∈ verified_citations self ∧
                     c_normalized c ∉ dom (suspicious_citations self))
           (extract_citations U text).
Proof.
  unfold check_text. cbn [all_verified].
  rewrite andb_true_iff, !Nat.eqb_eq, !count_zero, !Forall_fmap, <- Forall_and.
  apply Forall_iff. intros c. unfold verify_citation. cbn.
  rewrite andb_false_iff, !negb_false_iff, !bool_decide_eq_true, bool_decide_eq_false.
  destruct (decide (c_normalized c ∈ verified_citations self));
    destruct (decide (c_normalized c ∈ dom (suspicious_citations self))); tauto.
Qed.

Lemma all_verified_statuses (U : unicode) (self : checker) (text : str) :
  all_verified (check_text U self text) = true
  ↔ Forall (fun r => r_status r = STATUS_VERIFIED) (results (check_text U self text)).
Proof.
  rewrite all_verified_keys. unfold check_text. cbn [results]. rewrite Forall_fmap.
  apply Forall_iff. intros c. unfold verify_citation. cbn.
  rewrite get_status_verified, bool_decide_eq_true, bool_decide_eq_false. done.
Qed.

(** X1. [all_verified] holds exactly when every result has the status
    VERIFIED, that is when every extracted key is in the verified set and
    is no key of the suspicious map; and a result carries a reason exactly
    when it is flagged suspicious. *)
Theorem all_verified_iff (U : unicode) (self : checker) (text : str) :
  (all_verified (check_text U self text) = true
     ↔ Forall (fun r => r_status r = STATUS_VERIFIED) (results (check_text U self text))) ∧
  (all_verified (check_text U self text) = true
     ↔ Forall (fun c => c_normalized c ∈ verified_citations self ∧
                        c_normalized c ∉ dom (suspicious_citations self))
              (extract_citations U text)) ∧
  Forall (fun r => is_Some (r_suspicious_reason r) ↔ r_suspicious r = true)
         (results (check_text U self text)).
Proof.
  split; [apply all_verified_statuses|]. split; [apply all_verified_keys|].
  unfold check_text. cbn [results]. rewrite Forall_fmap.
  apply Forall_forall. intros c _. unfold verify_citation. cbn.
  by rewrite bool_decide_eq_true, elem_of_dom.
Qed.

(** ** The verified set *)

Section VerifiedSet.
Variable U : unicode.

Lemma elem_of_scan_into_set (content : str) (acc : gset str) (k : str) :
  k ∈ scan_into_set U content acc ↔
  k ∈ acc ∨ ∃ m, m ∈ raw_matches U content ∧ form_of m k.
Proof.
  unfold scan_into_set. rewrite fold_left_flat_map. fold (raw_matches U content).
  revert acc. induction (raw_matches U content) as [|m ms IH]; intros acc; simpl.
  - split; [by left|]. intros [?|(m & Hm & _)]; [done|]. by apply elem_of_nil in Hm.
  - rewrite IH. unfold add_both at 1, form_of. rewrite !elem_of_union, !elem_of_singleton.
    split.
    + intros [[?|[?|?]]|(m' & Hm' & Hk)]; eauto.
      * right. exists m. split; [left|]. by right.
      * right. exists m. split; [left|]. by left.
      * right. exists m'. split; [by right|done].
    + intros [?|(m' & [->|Hm']%elem_of_cons & Hk)]; [by eauto| |by eauto].
      left. destruct Hk; auto.
Qed.

Lemma elem_of_update_all (f : option str → gset str) (files : list (option str))
    (verified : gset str) (k : str) :
  k ∈ update_all f files verified ↔ k ∈ verified ∨ ∃ file, file ∈ files ∧ k ∈ f file.
Proof.
  unfold update_all. revert verified.
  induction files as [|x files IH]; intros verified; simpl.
  - split; [by left|]. intros [?|(x & Hx & _)]; [done|]. by apply elem_of_nil in Hx.
  - rewrite IH, elem_of_union. split.
    + intros [[?|?]|(y & Hy & Hk)]; eauto.
      * right. exists x. split; [left|done].
      * right. exists y. split; [by right|done].
    + intros [?|(y & [->|Hy]%elem_of_cons & Hk)]; eauto.
Qed.

Lemma elem_of_extract_from_file (file : option str) (k : str) :
  k ∈ _extract_citations_from_file U file ↔
  ∃ content m, file = Some content ∧ m ∈ raw_matches U content ∧ form_of m k.
Proof.
  destruct file as [content|]; simpl.
  - rewrite elem_of_scan_into_set. split.
    + intros [?|(m & Hm & Hk)]; [set_solver|]. by exists content, m.
    + intros (c & m & [= <-] & Hm & Hk). eauto.
  - split; [set_solver|]. by intros (c & m & ? & _).
Qed.

Lemma elem_of_extract_from_review (file : option str) (k : str) :
  k ∈ _extract_verified_from_review U file ↔
  ∃ content m, file = Some content ∧ review_verified U content = true ∧
               m ∈ raw_matches U content ∧ form_of m k.
Proof.
  destruct file as [content|]; unfold _extract_verified_from_review.
  - destruct (review_verified U content) eqn:Hv.
    + assert (negb (str_in (py "✅") content)
              || negb (str_in (py "VERIFIED") (upper U content)) = false) as ->.
      { unfold review_verified in Hv.
        by destruct (str_in (py "✅") content), (str_in (py "VERIFIED") (upper U content)). }
      rewrite elem_of_scan_into_set. split.
      * intros [?|(m & Hm & Hk)]; [set_solver|]. by exists content, m.
      * intros (c & m & [= <-] & _ & Hm & Hk). eauto.
    + assert (negb (str_in (py "✅") content)
              || negb (str_in (py "VERIFIED") (upper U content)) = true) as ->.
      { unfold review_verified in Hv.
        by destruct (str_in (py "✅") content), (str_in (py "VERIFIED") (upper U content)). }
      split; [set_solver|]. intros (c & m & [= <-] & Hc & _). congruence.
  - split; [set_solver|]. by intros (c & m & ? & _).
Qed.

Lemma elem_of_omap_id (l : list (option str)) (content : str) :
  content ∈ omap id l ↔ Some content ∈ l.
Proof.
  rewrite list_elem_of_omap. split.
  - intros (x & Hx & Heq). unfold id in Heq. by subst x.
  - intros H. by exists (Some content).
Qed.

Lemma elem_of_trusted_texts (src : sources) (content : str) :
  content ∈ trusted_texts U src ↔
  Some content ∈ correction_files src ∨
  bib_file src = Some content ∨
  (Some content ∈ pdf_reviews src ∧ review_verified U content = true) ∨
  Some content ∈ consensus_files src.
Proof.
  unfold trusted_texts.
  rewrite !elem_of_app, list_elem_of_filter, !elem_of_omap_id.
  assert (Hbib : content ∈ option_list (bib_file src) ↔ bib_file src = Some content).
  { destruct (bib_file src) as [b|]; simpl.
    - rewrite list_elem_of_singleton. split; [by intros ->|by intros [= ->]].
    - split; [by intros ?%elem_of_nil|done]. }
  rewrite Hbib. tauto.
Qed.

Lemma elem_of_load_verified_trusted (src : sources) (k : str) :
  k ∈ _load_verified_citations U src ↔
  ∃ content m, content ∈ trusted_texts U src ∧ m ∈ raw_matches U content ∧ form_of m k.
Proof.
  unfold _load_verified_citations.
  rewrite !elem_of_update_all, elem_of_union, elem_of_update_all.
  setoid_rewrite elem_of_extract_from_file.
  setoid_rewrite elem_of_extract_from_review.
  setoid_rewrite elem_of_trusted_texts.
  split.
  - intros [[[[Hk|(f & Hf & c & m & -> & Hm & Hk)]|(c & m & Hb & Hm & Hk)]
             |(f & Hf & c & m & -> & Hr & Hm & Hk)]|(f & Hf & c & m & -> & Hm & Hk)];
      [set_solver|exists c, m..]; eauto 10.
  - intros (c & m & [Hc|[Hb|[[Hr Hv]|Hs]]] & Hm & Hk).
    + left. left. left. right. exists (Some c). eauto 10.
    + left. left. right. eauto 10.
    + left. right. exists (Some c). eauto 10.
    + right. exists (Some c). eauto 10.
Qed.

(** X2. The verified set holds exactly the two forms of every match of the
    pattern set in a trusted text: a correction, bibliography or consensus
    file that could be read, or a review file that could be read and
    carries both marks. *)
Theorem elem_of_load_verified (src : sources) (k : str) :
  k ∈ _load_verified_citations U src ↔
  ∃ content m,
    (Some content ∈ correction_files src ∨
     bib_file src = Some content ∨
     (Some content ∈ pdf_reviews src ∧
      str_in (py "✅") content && str_in (py "VERIFIED") (upper U content) = true) ∨
     Some content ∈ consensus_files src) ∧
    m ∈ raw_matches U content ∧
    (k = et_al_form (group 1 m) (group 2 m) ∨ k = plain_form (group 1 m) (group 2 m)).
Proof.
  rewrite elem_of_load_verified_trusted. setoid_rewrite elem_of_trusted_texts. done.
Qed.

End VerifiedSet.

Section VerifiedSetProperties.
Variable U : unicode.

(** The verified set grows with the trusted texts. *)
Lemma load_verified_mono (src src' : sources) :
  (∀ content, content ∈ trusted_texts U src → content ∈ trusted_texts U src') →
  _load_verified_citations U src ⊆ _load_verified_citations U src'.
Proof.
  intros Hsub k. rewrite !elem_of_load_verified_trusted.
  intros (c & m & Hc & Hm & Hk). exists c, m. auto.
Qed.

(** X3. The verified set does not depend on the order in which the files of
    a tier are listed (the order [glob] returns them in). *)
Theorem load_verified_order (src src' : sources) :
  correction_files src ≡ₚ correction_files src' →
  bib_file src = bib_file src' →
  pdf_reviews src ≡ₚ pdf_reviews src' →
  consensus_files src ≡ₚ consensus_files src' →
  _load_verified_citations U src = _load_verified_citations U src'.
Proof.
  intros Hc Hb Hr Hs.
  assert (Hsame : ∀ content,
            content ∈ trusted_texts U src ↔ content ∈ trusted_texts U src').
  { intros content. rewrite !elem_of_trusted_texts. by rewrite Hc, Hb, Hr, Hs. }
  apply set_eq. intros k. split; apply load_verified_mono; intros c; apply Hsame.
Qed.

(** X4. A file that could not be read contributes nothing and disturbs
    nothing: the verified set is that of the files that could be read. *)
Theorem load_verified_unreadable (src : sources) :
  _load_verified_citations U src
  = _load_verified_citations U
      {| correction_files := readable (correction_files src);
         bib_file := bib_file src;
         pdf_reviews := readable (pdf_reviews src);
         consensus_files := readable (consensus_files src);
         suspicious_file := suspicious_file src;
         fabricated_file := fabricated_file src |}.
Proof.
  assert (Hread : ∀ (l : list (option str)) content,
            Some content ∈ readable l ↔ Some content ∈ l).
  { intros l content. unfold readable. rewrite list_elem_of_filter. naive_solver. }
  apply set_eq. intros k. split; apply load_verified_mono; intros c;
    rewrite !elem_of_trusted_texts; simpl; rewrite !Hread; done.
Qed.

(** X5. More files never take a citation out of the verified set. *)
Theorem load_verified_grows (src : sources) (corrections reviews consensus : list (option str)) :
  _load_verified_citations U src
  ⊆ _load_verified_citations U
      {| correction_files := correction_files src ++ corrections;
         bib_file := bib_file src;
         pdf_reviews := pdf_reviews src ++ reviews;
         consensus_files := consensus_files src ++ consensus;
         suspicious_file := suspicious_file src;
         fabricated_file := fabricated_file src |}.
Proof.
  apply load_verified_mono. intros c. rewrite !elem_of_trusted_texts. simpl.
  rewrite !elem_of_app. tauto.
Qed.

(** Both forms of an author-year pair are in the verified set together. *)
Lemma load_verified_paired (src : sources) (a y : str) :
  is_author a = true →
  et_al_form a y ∈ _load_verified_citations U src
  ↔ plain_form a y ∈ _load_verified_citations U src.
Proof.
  intros Ha. rewrite !elem_of_load_verified_trusted.
  split; intros (c & m & Hc & Hm & Hk); exists c, m; (split; [done|]); (split; [done|]);
    destruct (raw_match_shape U _ _ Hm) as (_ & Hma & _);
    unfold form_of in *.
  - assert (a = group 1 m ∧ y = group 2 m) as [-> ->]; [|by right].
    destruct Hk as [Hk|Hk].
    + by destruct (normalize_inj a y true (group 1 m) (group 2 m) true Ha Hma Hk) as (? & ? & _).
    + by destruct (normalize_inj a y true (group 1 m) (group 2 m) false Ha Hma Hk) as (_ & _ & ?).
  - assert (a = group 1 m ∧ y = group 2 m) as [-> ->]; [|by left].
    destruct Hk as [Hk|Hk].
    + by destruct (normalize_inj a y false (group 1 m) (group 2 m) true Ha Hma Hk) as (_ & _ & ?).
    + by destruct (normalize_inj a y false (group 1 m) (group 2 m) false Ha Hma Hk) as (? & ? & _).
Qed.

(** X10. A trusted text verifies its own citations: checked against a
    knowledge base built from it (among other files), every result has its
    verified flag set. *)
Theorem trusted_text_verifies_itself (src : sources) (text : str) :
  Some text ∈ correction_files src ∨
  bib_file src = Some text ∨
  (Some text ∈ pdf_reviews src ∧
   str_in (py "✅") text && str_in (py "VERIFIED") (upper U text) = true) ∨
  Some text ∈ consensus_files src →
  Forall (fun r => r_verified r = true) (results (check_text U (init U src) text)).
Proof.
  intros Hsrc. unfold check_text. cbn [results]. rewrite Forall_fmap.
  apply Forall_forall. intros c (m & Hm & ->)%extracted_is_record.
  unfold verify_citation. cbn. apply bool_decide_eq_true.
  apply elem_of_load_verified_trusted. exists text, m.
  split; [by apply elem_of_trusted_texts|]. split; [done|].
  unfold form_of, normalized_of, normalize. destruct (has_et_al U m); auto.
Qed.

End VerifiedSetProperties.

Lemma load_verified_order_witness :
  _load_verified_citations ascii_only
    {| correction_files := [Some (py "Smith (2024)"); Some (py "(Lee, 2021)")];
       bib_file := None; pdf_reviews := []; consensus_files := [];
       suspicious_file := None; fabricated_file := None |}
  = _load_verified_citations ascii_only
      {| correction_files := [Some (py "(Lee, 2021)"); Some (py "Smith (2024)")];
         bib_file := None; pdf_reviews := []; consensus_files := [];
         suspicious_file := None; fabricated_file := None |}.
Proof.
  apply (load_verified_order ascii_only); simpl;
    [apply perm_swap|reflexivity|reflexivity|reflexivity].
Defined.

Lemma trusted_text_verifies_itself_witness :
  Forall (fun r => r_verified r = true)
         (results (check_text ascii_only (init ascii_only one_correction_source)
                              (py "Smith et al. (2024)"))).
Proof.
  apply (trusted_text_verifies_itself ascii_only one_correction_source).
  left. simpl. left.
Defined.

(** ** The suspicious map *)

Section SuspiciousMap.
Variable U : unicode.

Lemma forms_differ (a y a' y' : str) :
  is_author a = true → is_author a' = true → et_al_form a y ≠ plain_form a' y'.
Proof.
  intros Ha Ha' Heq.
  by destruct (normalize_inj a y true a' y' false Ha Ha' Heq) as (_ & _ & ?).
Qed.

Lemma flag_both_paired (why : str) (suspicious : gmap str str) (m : rmatch) :
  is_author (group 1 m) = true →
  forms_paired suspicious → forms_paired (flag_both why suspicious m).
Proof.
  intros Hm HS a y Ha. unfold flag_both.
  destruct (decide (a = group 1 m ∧ y = group 2 m)) as [[-> ->]|Hne].
  - rewrite lookup_insert_eq, lookup_insert_ne, lookup_insert_eq; [done|].
    intros Heq. symmetry in Heq. by apply forms_differ in Heq.
  - rewrite !lookup_insert_ne; [by apply HS|..].
    + intros Heq. by apply forms_differ in Heq.
    + intros Heq. apply Hne.
      by destruct (normalize_inj _ _ false _ _ false Hm Ha Heq) as (-> & -> & _).
    + intros Heq. apply Hne.
      by destruct (normalize_inj _ _ true _ _ true Hm Ha Heq) as (-> & -> & _).
    + intros Heq. symmetry in Heq. by apply forms_differ in Heq.
Qed.

Lemma scan_into_map_paired (why content : str) (suspicious : gmap str str) :
  forms_paired suspicious → forms_paired (scan_into_map U why content suspicious).
Proof.
  rewrite scan_into_map_fold.
  assert (Hshape : Forall (fun m => is_author (group 1 m) = true) (raw_matches U content)).
  { apply Forall_forall. intros m Hm. by destruct (raw_match_shape U _ _ Hm) as (_ & ? & _). }
  revert suspicious. induction Hshape as [|m ms Hm _ IH]; intros S HS; [done|].
  simpl. by apply IH, flag_both_paired.
Qed.

Lemma flag_arxiv_paired (ms : list rmatch) (suspicious : gmap str str) :
  forms_paired suspicious → forms_paired (fold_left flag_arxiv ms suspicious).
Proof.
  intros HS a y Ha.
  rewrite !flag_arxiv_lookup; [by apply HS|..].
  - by apply (normalize_not_arxiv a y false).
  - by apply (normalize_not_arxiv a y true).
Qed.

Lemma load_suspicious_paired (src : sources) :
  forms_paired (_load_suspicious_citations U src).
Proof.
  unfold _load_suspicious_citations.
  assert (H0 : forms_paired
    match suspicious_file src with
    | Some data => fold_left (flag_item U) (default [] (high data) ++ default [] (medium data)) ∅
    | None => ∅
    end).
  { destruct (suspicious_file src) as [data|]; [|by intros a y _; rewrite !lookup_empty].
    generalize (default [] (high data) ++ default [] (medium data)).
    intros items.
    assert (Hgen : ∀ S : gmap str str, forms_paired S →
              forms_paired (fold_left (flag_item U) items S)).
    { induction items as [|it items IH]; intros S HS; [done|].
      simpl. apply IH. unfold flag_item. by apply scan_into_map_paired. }
    apply Hgen. by intros a y _; rewrite !lookup_empty. }
  destruct (fabricated_file src) as [content|]; [|done].
  by apply flag_arxiv_paired, scan_into_map_paired.
Qed.

(** X6. For a checker built from files, the two forms of an author-year
    pair are always judged alike: the same verified and suspicious flags,
    the same reason, the same status. *)
Theorem forms_judged_alike (src : sources) (a y text author year : str) :
  is_author a = true →
  r_verified (verify_citation (init U src) (et_al_form a y) text author year)
    = r_verified (verify_citation (init U src) (plain_form a y) text author year) ∧
  r_suspicious (verify_citation (init U src) (et_al_form a y) text author year)
    = r_suspicious (verify_citation (init U src) (plain_form a y) text author year) ∧
  r_suspicious_reason (verify_citation (init U src) (et_al_form a y) text author year)
    = r_suspicious_reason (verify_citation (init U src) (plain_form a y) text author year) ∧
  r_status (verify_citation (init U src) (et_al_form a y) text author year)
    = r_status (verify_citation (init U src) (plain_form a y) text author year).
Proof.
  intros Ha. unfold verify_citation, init. cbn.
  assert (Hv : bool_decide (et_al_form a y ∈ _load_verified_citations U src)
               = bool_decide (plain_form a y ∈ _load_verified_citations U src)).
  { apply bool_decide_ext. by apply load_verified_paired. }
  assert (Hs : bool_decide (et_al_form a y ∈ dom (_load_suspicious_citations U src))
               = bool_decide (plain_form a y ∈ dom (_load_suspicious_citations U src))).
  { apply bool_decide_ext. by rewrite !elem_of_dom, (load_suspicious_paired src a y Ha). }
  by rewrite Hv, Hs, (load_suspicious_paired src a y Ha).
Qed.

(** After the loop over arXiv identifiers, each of them has the reason. *)
Lemma flag_arxiv_fold (ms : list rmatch) (suspicious : gmap str str) :
  Forall (fun m => fold_left flag_arxiv ms suspicious !! (py "arXiv:" ++ group 1 m)
                   = Some REASON_ARXIV) ms.
Proof.
  induction ms as [|m ms IH] using rev_ind; [constructor|].
  rewrite fold_left_app. cbn [fold_left].
  apply Forall_app. split.
  - eapply Forall_impl; [exact IH|]. intros m' H. cbv beta in *.
    unfold flag_arxiv at 1. cbv zeta.
    apply lookup_insert_same, H.
  - constructor; [|constructor].
    unfold flag_arxiv at 1. cbv zeta.
    apply lookup_insert_eq.
Qed.

(** X7. The fabrication list has the last word: whatever the suspicious
    list said, both forms of every citation matched in the fabrication
    list carry its fixed reason, and every arXiv identifier found in it is
    a key with the reason of fabricated identifiers. *)
Theorem fabricated_overrides
    (corrections reviews consensus : list (option str)) (bib : option str)
    (data : option suspicious_data) (content : str) :
  Forall (fun m =>
            _load_suspicious_citations U
              {| correction_files := corrections; bib_file := bib;
                 pdf_reviews := reviews; consensus_files := consensus;
                 suspicious_file := data; fabricated_file := Some content |}
              !! et_al_form (group 1 m) (group 2 m) = Some REASON_FABRICATED ∧
            _load_suspicious_citations U
              {| correction_files := corrections; bib_file := bib;
                 pdf_reviews := reviews; consensus_files := consensus;
                 suspicious_file := data; fabricated_file := Some content |}
              !! plain_form (group 1 m) (group 2 m) = Some REASON_FABRICATED)
         (raw_matches U content) ∧
  Forall (fun m =>
            _load_suspicious_citations U
              {| correction_files := corrections; bib_file := bib;
                 pdf_reviews := reviews; consensus_files := consensus;
                 suspicious_file := data; fabricated_file := Some content |}
              !! (py "arXiv:" ++ group 1 m) = Some REASON_ARXIV)
         (finditer U arxiv_pattern content).
Proof.
  unfold _load_suspicious_citations. cbn [suspicious_file fabricated_file].
  split; [|apply flag_arxiv_fold].
  set (S0 := match data with Some _ => _ | None => _ end).
  pose proof (flag_both_fold REASON_FABRICATED (raw_matches U content) S0) as Hboth.
  rewrite <- scan_into_map_fold in Hboth.
  apply Forall_forall. intros m Hm.
  rewrite Forall_forall in Hboth. destruct (Hboth m Hm) as [H1 H2].
  destruct (raw_match_shape U _ _ Hm) as (_ & Ha & _).
  rewrite !flag_arxiv_lookup; [exact (conj H1 H2)|..].
  - by apply (normalize_not_arxiv _ _ false).
  - by apply (normalize_not_arxiv _ _ true).
Qed.

(** X11. A text on the fabrication list flags its own citations: every
    result of checking it is suspicious, with the reason of the list. *)
Theorem fabricated_text_flags_itself
    (corrections reviews consensus : list (option str)) (bib : option str)
    (data : option suspicious_data) (text : str) :
  Forall (fun r => r_suspicious r = true ∧
                   r_suspicious_reason r = Some REASON_FABRICATED)
         (results
            (check_text U
               (init U {| correction_files := corrections; bib_file := bib;
                          pdf_reviews := reviews; consensus_files := consensus;
                          suspicious_file := data; fabricated_file := Some text |})
               text)).
Proof.
  match goal with |- context [init U ?s] => set (src := s) end.
  unfold check_text. cbn [results]. rewrite Forall_fmap.
  apply Forall_forall. intros c (m & Hm & ->)%extracted_is_record.
  unfold verify_citation. cbn [r_suspicious r_suspicious_reason record_of c_normalized].
  assert (HS : suspicious_citations (init U src) !! normalized_of U m
               = Some REASON_FABRICATED).
  { unfold init, _load_suspicious_citations.
    cbn [suspicious_citations suspicious_file fabricated_file src].
    set (S0 := match data with Some _ => _ | None => _ end).
    pose proof (flag_both_fold REASON_FABRICATED (raw_matches U text) S0) as Hboth.
    rewrite <- scan_into_map_fold in Hboth.
    rewrite Forall_forall in Hboth. destruct (Hboth m Hm) as [H1 H2].
    destruct (raw_match_shape U _ _ Hm) as (_ & Ha & _).
    rewrite flag_arxiv_lookup by (by apply normalize_not_arxiv).
    unfold normalized_of, normalize. destruct (has_et_al U m); [exact H1|exact H2]. }
  split; [|exact HS]. apply bool_decide_eq_true, elem_of_dom.
  change (c_normalized (record_of U m)) with (normalized_of U m). by rewrite HS.
Qed.

End SuspiciousMap.

Lemma forms_judged_alike_witness :
  r_status (verify_citation (init ascii_only one_correction_source)
              (et_al_form (py "Smith") (py "2024")) [] [] [])
  = r_status (verify_citation (init ascii_only one_correction_source)
                (plain_form (py "Smith") (py "2024")) [] [] []).
Proof.
  exact (proj2 (proj2 (proj2
    (forms_judged_alike ascii_only one_correction_source (py "Smith") (py "2024")
       [] [] [] eq_refl)))).
Defined.

(** ** Keys of the knowledge base *)

Section KnowledgeBaseKeys.
Variable U : unicode.

Lemma match_canonical (text : str) (m : rmatch) (k : str) :
  m ∈ raw_matches U text → form_of m k → canonical U k.
Proof.
  intros Hm Hk. destruct (raw_match_shape U _ _ Hm) as (_ & Ha & Hy).
  by exists (group 1 m), (group 2 m).
Qed.

Lemma scan_into_map_shaped (why content : str) (suspicious : gmap str str) :
  keys_shaped U suspicious → keys_shaped U (scan_into_map U why content suspicious).
Proof.
  rewrite scan_into_map_fold.
  assert (Hshape : Forall (fun m => ∀ k, form_of m k → canonical U k)
                          (raw_matches U content)).
  { apply Forall_forall. intros m Hm k. by apply (match_canonical content). }
  revert suspicious. induction Hshape as [|m ms Hm _ IH]; intros S HS; [done|].
  simpl. apply IH. intros k. unfold flag_both.
  rewrite !lookup_insert. repeat case_decide; subst; intros Hk.
  - left. apply Hm. by right.
  - left. apply Hm. by left.
  - by apply HS.
Qed.

Lemma arxiv_match_key (content : str) (m : rmatch) :
  m ∈ finditer U arxiv_pattern content → arxiv_key U (py "arXiv:" ++ group 1 m).
Proof.
  intros Hm%finditer_sound. unfold arxiv_pattern, lit in Hm.
  destruct m as [t g]. cbn [matches m_text m_caps cls_ok] in Hm.
  repeat match goal with
         | H : ∃ _, _ |- _ => destruct H
         | H : _ ∧ _ |- _ => destruct H
         end.
  repeat match goal with
         | H : (_ =? _) = true |- _ => apply N.eqb_eq in H
         end.
  subst. unfold group. cbn [m_caps app cap_lookup Nat.eqb default].
  eexists _, _. split; [reflexivity|]. by repeat split.
Qed.

Lemma flag_arxiv_shaped (content : str) (suspicious : gmap str str) :
  keys_shaped U suspicious →
  keys_shaped U (fold_left flag_arxiv (finditer U arxiv_pattern content) suspicious).
Proof.
  assert (Hshape : Forall (fun m => arxiv_key U (py "arXiv:" ++ group 1 m))
                          (finditer U arxiv_pattern content)).
  { apply Forall_forall. intros m. apply arxiv_match_key. }
  revert suspicious. induction Hshape as [|m ms Hm _ IH]; intros S HS; [done|].
  simpl. apply IH. intros k. unfold flag_arxiv.
  rewrite lookup_insert. case_decide; subst; intros Hk; [by right|by apply HS].
Qed.

Lemma load_suspicious_shaped (src : sources) :
  keys_shaped U (_load_suspicious_citations U src).
Proof.
  unfold _load_suspicious_citations.
  assert (Hempty : keys_shaped U ∅).
  { intros k. rewrite lookup_empty. by intros [? ?]. }
  assert (H0 : keys_shaped U
    match suspicious_file src with
    | Some data => fold_left (flag_item U) (default [] (high data) ++ default [] (medium data)) ∅
    | None => ∅
    end).
  { destruct (suspicious_file src) as [data|]; [|done].
    generalize (default [] (high data) ++ default [] (medium data)).
    intros items. revert Hempty. generalize (∅ : gmap str str).
    induction items as [|it items IH]; intros S HS; [done|].
    simpl. apply IH. unfold flag_item. by apply scan_into_map_shaped. }
  destruct (fabricated_file src) as [content|]; [|done].
  by apply flag_arxiv_shaped, scan_into_map_shaped.
Qed.

(** X8. Whatever the files hold, every key of the verified set has the
    canonical shape (one of the two forms of an author token and a year
    token), and every key of the suspicious map has it or is an arXiv key. *)
Theorem knowledge_base_keys (src : sources) :
  (∀ k, k ∈ verified_citations (init U src) → canonical U k) ∧
  (∀ k, k ∈ dom (suspicious_citations (init U src)) → canonical U k ∨ arxiv_key U k).
Proof.
  split; intros k; cbn [init verified_citations suspicious_citations].
  - intros (c & m & _ & Hm & Hk)%elem_of_load_verified_trusted.
    by eapply match_canonical.
  - rewrite elem_of_dom. apply load_suspicious_shaped.
Qed.

End KnowledgeBaseKeys.

(** ** The text of a record *)

Lemma substring_refl (p : str) : substring p p.
Proof. exists [], []. by rewrite app_nil_r. Qed.

Lemma substring_app_l (p s t : str) : substring p s → substring p (s ++ t).
Proof. intros (a & b & ->). exists a, (b ++ t). by rewrite <- !app_assoc. Qed.

Lemma substring_app_r (p s t : str) : substring p t → substring p (s ++ t).
Proof. intros (a & b & ->). exists (s ++ a), b. by rewrite <- !app_assoc. Qed.

Lemma substring_cons (p : str) (c : N) (t : str) : substring p t → substring p (c :: t).
Proof. apply (substring_app_r p [c] t). Qed.

Lemma substring_head (p t : str) : substring p (p ++ t).
Proof. apply substring_app_l, substring_refl. Qed.

Lemma substring_cons_head (c : N) (p t : str) : substring (c :: p) (c :: p ++ t).
Proof. apply (substring_head (c :: p) t). Qed.

Section Verbatim.
Variable U : unicode.

Lemma scan_found_at r prev s skip m :
  m ∈ scan U r prev s skip →
  ∃ before after prev', s = before ++ after ∧ match_at U r prev' after = Some m.
Proof.
  revert prev skip. induction s as [|c s IH]; intros prev skip; simpl.
  - destruct skip; [|by rewrite elem_of_nil].
    destruct (match_at U r prev []) eqn:Hm; [|by rewrite elem_of_nil].
    rewrite list_elem_of_singleton. intros ->. by exists [], [], prev.
  - assert (Hrec : ∀ k, m ∈ scan U r (Some c) s k →
              ∃ before after prev', c :: s = before ++ after
                                    ∧ match_at U r prev' after = Some m).
    { intros k (b & a & p & -> & Hm)%IH. by exists (c :: b), a, p. }
    destruct skip as [|k]; [|by apply Hrec].
    destruct (match_at U r prev (c :: s)) eqn:Hm; [|by apply Hrec].
    rewrite elem_of_cons. intros [->|Hin]; [|by eapply Hrec].
    by exists [], (c :: s), prev.
Qed.

Lemma match_at_prefix r prev s m :
  match_at U r prev s = Some m → ∃ rest, s = m_text m ++ rest.
Proof.
  unfold match_at. destruct (run U r prev [] s) as [|o l] eqn:Hrun; [done|].
  intros [= <-]. simpl.
  destruct (run_sound U r prev [] s o) as (gs & _ & _ & Hs); [rewrite Hrun; left|].
  by exists o.2.
Qed.

Lemma finditer_substring r text m :
  m ∈ finditer U r text → substring (m_text m) text.
Proof.
  intros (b & a & p & -> & (rest & ->)%match_at_prefix)%scan_found_at.
  by exists b, rest.
Qed.

(** In a match of a citation pattern, the groups are parts of the text,
    which has at least eight characters. *)
Lemma citation_pattern_parts p t gs :
  p ∈ citation_patterns → matches U p t gs →
  (8 ≤ length t)%nat ∧
  substring (default [] (cap_lookup 1 gs)) t ∧
  substring (default [] (cap_lookup 2 gs)) t.
Proof.
  unfold citation_patterns. rewrite !elem_of_cons, elem_of_nil.
  intros [->|[->|[->|[->|[->|[]]]]]]; simpl; intros Hm;
    repeat match goal with
           | H : ∃ _, _ |- _ => destruct H
           | H : _ ∧ _ |- _ => destruct H
           end; subst; simpl.
  all: repeat match goal with
              | H : ?l ≠ [] |- _ =>
                  assert (1 ≤ length l)%nat by (destruct l; [done|simpl; lia]); clear H
              end.
  all: split; [repeat first [rewrite length_app | progress cbn [length]]; lia|].
  all: split;
    eauto 30 using substring_refl, substring_app_l, substring_app_r,
      substring_cons, substring_cons_head.
Qed.

(** X9. What a record reports is taken verbatim from the input: its text
    is a part of the input of at least eight characters, and its author and
    its year are parts of that text. *)
Theorem extracted_text_verbatim (text : str) :
  Forall (fun c => substring (c_text c) text ∧
                   (8 ≤ length (c_text c))%nat ∧
                   substring (c_author c) (c_text c) ∧
                   substring (c_year c) (c_text c))
         (extract_citations U text).
Proof.
  apply Forall_forall. intros c (m & Hm & ->)%extracted_is_record.
  unfold raw_matches in Hm. rewrite list_elem_of_In, in_flat_map in Hm.
  destruct Hm as (p & Hp%list_elem_of_In & Hm%list_elem_of_In).
  pose proof (finditer_substring p text m Hm) as Hsub.
  apply finditer_sound in Hm.
  destruct (citation_pattern_parts p _ _ Hp Hm) as (Hlen & Ha & Hy).
  by cbn.
Qed.

End Verbatim.

(** ** The command line *)

Section CommandLine.
Variable U : unicode.
Variable dumps : report -> str.


(** X13. An empty [--text] counts as no [--text]: [main] then reads the
    file of [--file] or, without one, the standard input, just as if the
    option had not been given. *)
Theorem main_empty_text (file : option str) (stdin json quiet : bool) (env : environment) :
  main U dumps {| args_text := Some []; args_file := file; args_stdin := stdin;
                  args_json := json; args_quiet := quiet |} env
  = main U dumps {| args_text := None; args_file := file; args_stdin := stdin;
                    args_json := json; args_quiet := quiet |} env ∧
  read_input {| args_text := Some []; args_file := None; args_stdin := stdin;
                args_json := json; args_quiet := quiet |} env
  = Some (env_stdin env).
Proof. done. Qed.

End CommandLine.

(** ** The order of the suspicious list *)

Section SuspiciousOrder.
Variable U : unicode.

(** A loop over matches leaves the keys alone that are no form of any of
    them. *)
Lemma flag_both_untouched (why k : str) (ms : list rmatch) (suspicious : gmap str str) :
  Forall (fun m => ¬ form_of m k) ms →
  fold_left (flag_both why) ms suspicious !! k = suspicious !! k.
Proof.
  intros Hms. revert suspicious.
  induction Hms as [|m ms Hm _ IH]; intros S; [done|].
  cbn [fold_left]. rewrite IH. unfold flag_both. cbv zeta.
  rewrite !lookup_insert_ne; [done|..].
  - intros Heq. apply Hm. left. done.
  - intros Heq. apply Hm. right. done.
Qed.

Lemma scan_into_map_untouched (why k content : str) (suspicious : gmap str str) :
  unmentioned U k content →
  scan_into_map U why content suspicious !! k = suspicious !! k.
Proof. rewrite scan_into_map_fold. apply flag_both_untouched. Qed.

Lemma flag_items_untouched (k : str) (items : list item) (suspicious : gmap str str) :
  Forall (fun it => unmentioned U k (default [] (line it))) items →
  fold_left (flag_item U) items suspicious !! k = suspicious !! k.
Proof.
  intros Hits. revert suspicious.
  induction Hits as [|it items Hit _ IH]; intros S; [done|].
  cbn [fold_left]. rewrite IH. by apply scan_into_map_untouched.
Qed.

(** X14. In the suspicious list the last entry to mention a citation
    decides its reason: entries are loaded bucket "high" first, then
    "medium", each in order, and a later entry overwrites an earlier one.
    The reason of an entry stands for both forms of a citation matched in
    its line as long as no later entry and no text of the fabrication list
    matches that citation. *)
Theorem last_entry_decides
    (src : sources) (data : suspicious_data) (before after : list item)
    (it : item) (m : rmatch) (k : str) :
  suspicious_file src = Some data →
  entries data = before ++ it :: after →
  m ∈ raw_matches U (default [] (line it)) →
  form_of m k →
  Forall (fun it' => unmentioned U k (default [] (line it'))) after →
  unmentioned U k (default [] (fabricated_file src)) →
  _load_suspicious_citations U src !! k
    = Some (default (py "Unknown reason") (reason it)).
Proof.
  intros Hfile Hsplit Hm Hk Hafter Hfab.
  unfold _load_suspicious_citations. rewrite Hfile.
  fold (entries data). rewrite Hsplit.
  rewrite fold_left_app. cbn [fold_left].
  set (S0 := fold_left (flag_item U) before ∅).
  assert (Hjson : fold_left (flag_item U) after (flag_item U S0 it) !! k
                  = Some (default (py "Unknown reason") (reason it))).
  { rewrite flag_items_untouched by done.
    unfold flag_item. rewrite scan_into_map_fold.
    pose proof (flag_both_fold (default (py "Unknown reason") (reason it))
                  (raw_matches U (default [] (line it))) S0) as Hboth.
    rewrite Forall_forall in Hboth. destruct (Hboth m Hm) as [H1 H2].
    by destruct Hk as [->| ->]. }
  destruct (fabricated_file src) as [content|]; [|exact Hjson].
  cbn [default] in Hfab.
  destruct (raw_match_shape U _ _ Hm) as (_ & Ha & _).
  rewrite flag_arxiv_lookup.
  - by rewrite scan_into_map_untouched.
  - destruct Hk as [->| ->].
    + by apply (normalize_not_arxiv _ _ true).
    + by apply (normalize_not_arxiv _ _ false).
Qed.

End SuspiciousOrder.

Lemma last_entry_decides_witness :
  _load_suspicious_citations ascii_only lee_twice_source !! py "Lee et al. (2021)"
  = Some (py "disputed").
Proof.
  apply (last_entry_decides ascii_only lee_twice_source
           {| high := Some [lee_entry];
              medium := Some [{| line := Some (py "See Lee (2021).");
                                 reason := Some (py "disputed") |}] |}
           [lee_entry]
           []
           {| line := Some (py "See Lee (2021)."); reason := Some (py "disputed") |}
           {| m_text := py "Lee (2021)";
              m_caps := [(2%nat, py "2021"); (1%nat, py "Lee")] |}).
  - reflexivity.
  - reflexivity.
  - vm_compute. left.
  - left. reflexivity.
  - constructor.
  - vm_compute. constructor.
Defined.

(** ** The report *)

Section Report.
Variable U : unicode.
Variable dumps : report -> str.






End Report.

